(** * atopile [model2/datamodel1.py]: the tree walker [Dizzy]

    A shallow embedding of the visitor class [Dizzy] of
    [src/atopile/model2/datamodel1.py] together with the properties the
    specification states about it.

    Python values are dynamically typed, so the walker is embedded over a
    closed universe [value] of the values that flow through it, a heap of
    mutable entities (objects are retyped in place, scopes are bound into),
    and a state-and-exception monad in which a raised exception keeps the
    heap as it was at the point of the raise, as in Python. *)

From Stdlib Require Import ZArith NArith String Ascii List Bool Lia.
From stdpp Require Import base option list gmap strings.
Import ListNotations.

Local Open Scope string_scope.
Local Open Scope list_scope.

Set Default Proof Using "Type".
Set Warnings "-register-all".

(* ===================================================================== *)
(** * Python primitives used by the walker *)
(* ===================================================================== *)

(** ** Token texts

    A token text is a Python [str]; a [string] here holds its UTF-8
    encoding, one [ascii] per byte. [utf8_decode] gives the code points,
    and fails on bytes that encode no [str] (over-long forms, surrogates,
    code points above 0x10FFFF): such a [string] stands for no text. *)

Definition continuation (c : ascii) : option N :=
  let b := N_of_ascii c in
  if ((128 <=? b) && (b <? 192))%N then Some (b - 128)%N else None.

Fixpoint utf8_decode (l : list ascii) : option (list N) :=
  match l with
  | [] => Some []
  | a :: r =>
      let b := N_of_ascii a in
      if (b <? 128)%N then cons b <$> utf8_decode r
      else if (b <? 194)%N then None
      else if (b <? 224)%N then
        match r with
        | c1 :: r1 =>
            match continuation c1 with
            | Some x1 => cons ((b - 192) * 64 + x1)%N <$> utf8_decode r1
            | None => None
            end
        | _ => None
        end
      else if (b <? 240)%N then
        match r with
        | c1 :: c2 :: r2 =>
            match continuation c1, continuation c2 with
            | Some x1, Some x2 =>
                let cp := ((b - 224) * 4096 + x1 * 64 + x2)%N in
                if ((cp <? 2048) || ((55296 <=? cp) && (cp <? 57344)))%N then None
                else cons cp <$> utf8_decode r2
            | _, _ => None
            end
        | _ => None
        end
      else if (b <? 245)%N then
        match r with
        | c1 :: c2 :: c3 :: r3 =>
            match continuation c1, continuation c2, continuation c3 with
            | Some x1, Some x2, Some x3 =>
                let cp := ((b - 240) * 262144 + x1 * 4096 + x2 * 64 + x3)%N in
                if ((cp <? 65536) || (1114111 <? cp))%N then None
                else cons cp <$> utf8_decode r3
            | _, _, _ => None
            end
        | _ => None
        end
      else None
  end.

(** The code points from U+007F on for which [str.isspace] holds. *)
Definition unicode_spaces : list N :=
  [0x85; 0xA0; 0x1680; 0x2000; 0x2001; 0x2002; 0x2003; 0x2004; 0x2005; 0x2006;
   0x2007; 0x2008; 0x2009; 0x200A; 0x2028; 0x2029; 0x202F; 0x205F; 0x3000]%N.

(** The decimal digits of Unicode 14 (the database of CPython 3.11) come
    in runs of ten, zero first; these are the zeros. *)
Definition decimal_zeros : list N :=
  [0x30; 0x660; 0x6F0; 0x7C0; 0x966; 0x9E6; 0xA66; 0xAE6; 0xB66; 0xBE6; 0xC66;
   0xCE6; 0xD66; 0xDE6; 0xE50; 0xED0; 0xF20; 0x1040; 0x1090; 0x17E0; 0x1810;
   0x1946; 0x19D0; 0x1A80; 0x1A90; 0x1B50; 0x1BB0; 0x1C40; 0x1C50; 0xA620;
   0xA8D0; 0xA900; 0xA9D0; 0xA9F0; 0xAA50; 0xABF0; 0xFF10; 0x104A0; 0x10D30;
   0x11066; 0x110F0; 0x11136; 0x111D0; 0x112F0; 0x11450; 0x114D0; 0x11650;
   0x116C0; 0x11730; 0x118E0; 0x11950; 0x11C50; 0x11D50; 0x11DA0; 0x16A60;
   0x16AC0; 0x16B50; 0x1D7CE; 0x1D7D8; 0x1D7E2; 0x1D7EC; 0x1D7F6; 0x1E140;
   0x1E2F0; 0x1E950; 0x1FBF0]%N.

Definition unicode_decimal (cp : N) : option N :=
  match List.find (fun zero => (zero <=? cp) && (cp <? zero + 10))%N
          decimal_zeros with
  | Some zero => Some (cp - zero)%N
  | None => None
  end.

(** What [int] and [float] do to a [str] before they parse it: a code
    point below U+007F is kept, a Unicode space becomes a blank, a Unicode
    decimal digit becomes its ASCII digit and any other code point a
    question mark. *)
Definition ascii_of_code_point (cp : N) : ascii :=
  if (cp <? 127)%N then ascii_of_N cp
  else if existsb (N.eqb cp) unicode_spaces then ascii_of_N 32
  else match unicode_decimal cp with
       | Some d => ascii_of_N (48 + d)
       | None => ascii_of_N 63
       end.

Definition TransformDecimalAndSpaceToASCII (text : string)
  : option (list ascii) :=
  map ascii_of_code_point <$> utf8_decode (list_ascii_of_string text).

(** ** [int(text)]

    After the transformation, [int] strips the surrounding white space
    (tab to carriage return, and the blank), accepts one optional sign and
    then decimal digits, where single underscores may separate digits. A
    text of more than [max_str_digits] digits is refused (the default of
    [sys.int_info.default_max_str_digits]). [None] stands for the
    [ValueError] of [int]. *)

Definition is_space (c : ascii) : bool :=
  let n := nat_of_ascii c in
  (((9 <=? n) && (n <=? 13)) || (n =? 32))%nat.

Definition digit_of (c : ascii) : option Z :=
  let n := nat_of_ascii c in
  if ((48 <=? n) && (n <=? 57))%nat then Some (Z.of_nat (n - 48)) else None.

Definition is_digit (c : ascii) : bool :=
  match digit_of c with Some _ => true | None => false end.

Definition is_underscore (c : ascii) : bool := (nat_of_ascii c =? 95)%nat.

Fixpoint lstrip_with (f : ascii -> bool) (l : list ascii) : list ascii :=
  match l with
  | c :: r => if f c then lstrip_with f r else l
  | [] => []
  end.

Definition strip_with (f : ascii -> bool) (l : list ascii) : list ascii :=
  rev (lstrip_with f (rev (lstrip_with f l))).

(** [more_digits acc l]: [l] follows a digit, [acc] is the value so far. *)
Fixpoint more_digits (acc : Z) (l : list ascii) : option Z :=
  match l with
  | [] => Some acc
  | c :: r =>
      match digit_of c with
      | Some d => more_digits (10 * acc + d)%Z r
      | None =>
          if is_underscore c then
            match r with
            | c' :: r' =>
                match digit_of c' with
                | Some d => more_digits (10 * acc + d)%Z r'
                | None => None
                end
            | [] => None
            end
          else None
      end
  end.

Definition unsigned_int (l : list ascii) : option Z :=
  match l with
  | c :: r => match digit_of c with
              | Some d => more_digits d r
              | None => None
              end
  | [] => None
  end.

Definition max_str_digits : N := 4300.

Definition signed_int (l : list ascii) : option Z :=
  match l with
  | [] => None
  | c :: r =>
      if (nat_of_ascii c =? 45)%nat then Z.opp <$> unsigned_int r
      else if (nat_of_ascii c =? 43)%nat then unsigned_int r
      else unsigned_int (c :: r)
  end.

Definition py_int (text : string) : option Z :=
  match TransformDecimalAndSpaceToASCII text with
  | None => None
  | Some l =>
      let l := strip_with is_space l in
      if (max_str_digits <? N.of_nat (length (List.filter is_digit l)))%N
      then None
      else signed_int l
  end.

(** ** [float(text)]

    A Python [float] is an IEEE 754 double: [Finite s m e] is the value
    [(-1)^s * m * 2^e], with [2^52 <= m < 2^53] for a normal number,
    [e = -1074] and [0 < m < 2^52] for a subnormal one, and [m = e = 0]
    for the two zeros. *)
Inductive pyfloat : Type :=
| Finite (negative : bool) (mantissa exponent : Z)
| Infinity (negative : bool)
| NaN.

(** [float] accepts underscores between two digits only, and parses the
    text without them. [prev] is the character before [l]. *)
Fixpoint drop_underscores (prev : option ascii) (l : list ascii)
  : option (list ascii) :=
  match l with
  | [] =>
      match prev with
      | Some p => if is_underscore p then None else Some []
      | None => Some []
      end
  | c :: r =>
      if is_underscore c then
        match prev with
        | Some p => if is_digit p then drop_underscores (Some c) r else None
        | None => None
        end
      else
        match prev with
        | Some p =>
            if is_underscore p && negb (is_digit c) then None
            else cons c <$> drop_underscores (Some c) r
        | None => cons c <$> drop_underscores (Some c) r
        end
  end.

Fixpoint take_digits (l : list ascii) : list Z * list ascii :=
  match l with
  | c :: r =>
      match digit_of c with
      | Some d => let '(ds, rest) := take_digits r in (d :: ds, rest)
      | None => ([], l)
      end
  | [] => ([], [])
  end.

Definition decimal_value (ds : list Z) : Z :=
  fold_left (fun acc d => 10 * acc + d)%Z ds 0%Z.

Definition take_sign (l : list ascii) : bool * list ascii :=
  match l with
  | c :: r =>
      if (nat_of_ascii c =? 45)%nat then (true, r)
      else if (nat_of_ascii c =? 43)%nat then (false, r)
      else (false, l)
  | [] => (false, [])
  end.

(** The double nearest to [M * 10^E] for [0 <= M], ties to the even
    mantissa. The first two tests settle, without computing the power,
    the values of at least [2^1025] and those below [2^-1076]; otherwise
    the value is the fraction [N / D], [e2] is the exponent of its
    leading bit and [k] that of the last bit a double keeps of it. *)
Definition round_to_double (negative : bool) (M E : Z) : pyfloat :=
  if (M =? 0)%Z then Finite negative 0 0
  else
    let b := Z.log2 M in
    if (0 <=? E)%Z && (1025 <=? b + 3 * E)%Z then Infinity negative
    else if (E <? 0)%Z && (b + 1 + 3 * E <=? -1076)%Z then Finite negative 0 0
    else
      let N := if (0 <=? E)%Z then (M * 10 ^ E)%Z else M in
      let D := if (0 <=? E)%Z then 1%Z else (10 ^ (- E))%Z in
      let e0 := (Z.log2 N - Z.log2 D)%Z in
      let e2 := if (D * 2 ^ Z.max 0 e0 <=? N * 2 ^ Z.max 0 (- e0))%Z
                then e0 else (e0 - 1)%Z in
      let k := Z.max (e2 - 52) (-1074) in
      let NN := (N * 2 ^ Z.max 0 (- k))%Z in
      let DD := (D * 2 ^ Z.max 0 k)%Z in
      let q := (NN / DD)%Z in
      let r := (NN mod DD)%Z in
      let m := if (DD <? 2 * r)%Z || ((2 * r =? DD)%Z && Z.odd q)
               then (q + 1)%Z else q in
      if (m =? 0)%Z then Finite negative 0 0
      else if (1024 <=? Z.log2 m + k)%Z then Infinity negative
      else if (m =? 2 ^ 53)%Z then Finite negative (2 ^ 52) (k + 1)
      else Finite negative m k.

Definition lower_ascii (c : ascii) : ascii :=
  let n := nat_of_ascii c in
  if ((65 <=? n) && (n <=? 90))%nat then ascii_of_nat (n + 32) else c.

(** One optional sign, then digits with at most one point and at least
    one digit, then an optional exponent; or [inf], [infinity] or [nan]
    in any case. Nothing may follow. *)
Definition parse_float (l : list ascii) : option pyfloat :=
  let '(negative, body) := take_sign l in
  let '(int_part, after_int) := take_digits body in
  let '(frac_part, after_frac) :=
    match after_int with
    | c :: r =>
        if (nat_of_ascii c =? 46)%nat then take_digits r else ([], after_int)
    | [] => ([], [])
    end in
  match int_part ++ frac_part with
  | [] =>
      let word := string_of_list_ascii (map lower_ascii body) in
      if String.eqb word "inf" || String.eqb word "infinity"
      then Some (Infinity negative)
      else if String.eqb word "nan" then Some NaN
      else None
  | digits =>
      let M := decimal_value digits in
      let shift := Z.of_nat (length frac_part) in
      match after_frac with
      | [] => Some (round_to_double negative M (- shift))
      | c :: r =>
          if ((nat_of_ascii c =? 101) || (nat_of_ascii c =? 69))%nat then
            let '(exp_negative, exp_body) := take_sign r in
            match take_digits exp_body with
            | (d :: ds, []) =>
                let e := decimal_value (d :: ds) in
                Some (round_to_double negative M
                        ((if exp_negative then - e else e) - shift))
            | _ => None
            end
          else None
      end
  end.

(** [float(text)]; [None] stands for its [ValueError]. *)
Definition py_float (text : string) : option pyfloat :=
  match TransformDecimalAndSpaceToASCII text with
  | None => None
  | Some l =>
      match drop_underscores None l with
      | None => None
      | Some l => parse_float (strip_with is_space l)
      end
  end.

(** [value.is_integer()] and [int(value)]: the integer a float is equal
    to, if any. *)
Definition float_to_int (f : pyfloat) : option Z :=
  match f with
  | Finite negative m e =>
      let magnitude :=
        if (0 <=? e)%Z then Some (m * 2 ^ e)%Z
        else if (m mod 2 ^ (- e) =? 0)%Z then Some (m / 2 ^ (- e))%Z
        else None in
      (fun v => if negative then (- v)%Z else v) <$> magnitude
  | _ => None
  end.

(** ** [str.strip(chars)] and [str.lower] *)

Definition is_quote (c : ascii) : bool :=
  let n := nat_of_ascii c in ((n =? 34) || (n =? 39))%nat.

Definition strip_quotes (text : string) : string :=
  string_of_list_ascii (strip_with is_quote (list_ascii_of_string text)).

Definition lower (text : string) : string :=
  string_of_list_ascii (map lower_ascii (list_ascii_of_string text)).

(* ===================================================================== *)
(** * Names, scopes, classes and values *)
(* ===================================================================== *)

(** A name is what [visitName] returns: an [int] or a [str]. *)
Inductive key : Type :=
| KInt (z : Z)
| KStr (s : string).

#[global] Instance key_eq_dec : EqDecision key.
Proof. solve_decision. Defined.

#[global] Instance key_countable : Countable key.
Proof.
  refine (inj_countable'
            (fun k => match k with KInt z => inl z | KStr s => inr s end)
            (fun x => match x with inl z => KInt z | inr s => KStr s end) _).
  intros []; reflexivity.
Defined.

(** Python truthiness of a name: [0] and the empty string are falsy. *)
Definition truthy (k : key) : bool :=
  match k with
  | KInt z => negb (Z.eqb z 0)
  | KStr s => negb (String.eqb s "")
  end.

(** Heap addresses: the identity of a mutable entity. *)
Abbreviation addr := nat (only parsing).

(** Modelled from the spec: the class [Scope] of [atopile.model2.scope2]
    (not in the sources). Section 4.1: "a chained namespace mapping names
    to values, supporting nested lookup through a parent chain"; section
    4.4: a scope is "rooted at" an entity and names "resolve against its
    members". A scope is the entity it is rooted at and the roots of its
    ancestors, nearest first ("parent links (back-references only)"). *)
Record Scope : Type := mkScope {
  root : addr;
  parents : list addr
}.

#[global] Instance Scope_eq_dec : EqDecision Scope.
Proof. solve_decision. Defined.

Module types.

(** Modelled from the spec: [types.Class] of [atopile.model2.types] (not
    in the sources). Section 3: "a named type descriptor; has zero or one
    super-class (single inheritance)"; classes are "immutable once
    created", so the super chain is part of the class value; [id] is the
    identity of the class. *)
Inductive Class : Type :=
| mkClass (id : addr) (name : key) (super : option Class).

Definition id (c : Class) : addr := match c with mkClass i _ _ => i end.
Definition name (c : Class) : key := match c with mkClass _ n _ => n end.
Definition super (c : Class) : option Class :=
  match c with mkClass _ _ s => s end.

#[global] Instance Class_eq_dec : EqDecision Class.
Proof.
  refine (fix go (a b : Class) {struct a} : Decision (a = b) :=
    match a, b with
    | mkClass i n s, mkClass j m t =>
        cast_if_and3 (decide (i = j)) (decide (n = m))
          (match s, t return Decision (s = t) with
           | Some s', Some t' => cast_if (go s' t')
           | None, None => left _
           | _, _ => right _
           end)
    end); congruence.
Defined.

(** Modelled from the spec: section 4.2, "[is_subclass_of(candidate,
    ancestor)]: true if [ancestor] appears in [candidate]'s super chain
    (reflexive - a class is a subclass of itself)". *)
Fixpoint is_subclass_of (candidate ancestor : Class) : bool :=
  bool_decide (candidate = ancestor) ||
  match candidate with
  | mkClass _ _ (Some s) => is_subclass_of s ancestor
  | mkClass _ _ None => false
  end.

(** Modelled from the spec: the built-in classes of section 3,
    "Module, Component (subclass of Module), Pin, Signal, Interface,
    Link", with section 4.4: "Pin and Signal are both Interface
    subtypes". *)
Definition MODULE : Class := mkClass 0 (KStr "Module") None.
Definition COMPONENT : Class := mkClass 1 (KStr "Component") (Some MODULE).
Definition INTERFACE : Class := mkClass 2 (KStr "Interface") None.
Definition PIN : Class := mkClass 3 (KStr "Pin") (Some INTERFACE).
Definition SIGNAL : Class := mkClass 4 (KStr "Signal") (Some INTERFACE).
Definition LINK : Class := mkClass 5 (KStr "Link") None.

(** The [type_] of a [types.Attribute], as [visitAssign_stmt] sets it:
    the class of an object ([x.type_], an instance of [types.Class]),
    the Python class [types.Class] itself, or [type(x)] of a literal. *)
Inductive descriptor : Type :=
| TClass (c : Class)
| TPyClass
| TPyInt
| TPyFloat
| TPyStr
| TPyBool.

(** The values the walker handles. [types.Object] instances are mutable
    and referred to by address; classes and attributes are never mutated
    after creation and are plain values. *)
Inductive value : Type :=
| VObject (a : addr)
| VClass (c : Class)
| VAttribute (type_ : descriptor) (v : value)
| VScope (s : Scope)
| VInt (z : Z)
| VFloat (f : pyfloat)
| VStr (s : string)
| VBool (b : bool)
| VNone.

(** Modelled from the spec: a [types.Object] (not in the sources), "an
    instantiation of a Class" whose "[type_] field may be mutated" by a
    retype statement; [start] and [end_] are the attributes that
    [visitConnect_stmt] sets on a link object. *)
Record Object : Type := mkObject {
  type_ : Class;
  start : option value;
  end_ : option value
}.

End types.
Export types.

(** An entity of the heap: what a scope can be rooted at. [instance] holds
    the object fields when the entity is a [types.Object]; [members] are
    the names bound in it and [anon] its anonymous members in order. *)
Record cell : Type := mkCell {
  instance : option types.Object;
  members : gmap key value;
  anon : list value
}.

(** The walker's state: the heap and the attribute [self.scope]. *)
Record state : Type := mkState {
  heap : list cell;
  scope : Scope
}.

#[global] Instance descriptor_eq_dec : EqDecision descriptor.
Proof. solve_decision. Defined.

#[global] Instance pyfloat_eq_dec : EqDecision pyfloat.
Proof. solve_decision. Defined.

#[global] Instance value_eq_dec : EqDecision value.
Proof. solve_decision. Defined.

(* ===================================================================== *)
(** * Exceptions *)
(* ===================================================================== *)

(** The text of an exception, one constructor per message of the source;
    the arguments are the values its f-string interpolates. *)
Inductive message : Type :=
| Expected_an_integer (text : string)
| Unknown_block_type (block_type_name : string)
| Not_an_object_or_class (attr : key) (scope : Scope)
| Expected_a_name_or_attribute
| Cannot_redefine (name : key)
| Expected_a_name_after_from
| Can_only_subclass_classes (super_name : Scope)
| Can_only_subclass (allowed_supers : list value) (super_name : Scope)
| Pins_must_have_a_name
| Signals_must_have_a_name
| Expected_a_from_file_path
| Expected_a_name_to_import
| Import_star
| Cannot_connect (text : string)
| Unknown_error
| Can_only_initialise_classes (name_to_init : key)
| Can_only_retype_objects (obj_name : key)
| Can_only_retype_to_classes (target_name : key)
| Cannot_retype (obj_name target_name type_name : key)
| No_message.

(** The exceptions the walker can raise: the three classes it takes from
    [atopile.model2.errors], Python's own ([ValueError text] is the one
    of [float(text)]), and the failure of a scope lookup (section 4.1 of
    the specification: "fails with a NameNotFound condition"). *)
Inductive exception : Type :=
| AtoTypeError (m : message)
| AtoCompileError (m : message)
| AtoNameConflictError (m : message)
| NotImplementedError (m : message)
| NameNotFound (name : key)
| TypeError (why : string)
| ValueError (text : string)
| UnboundLocalError (variable : string)
| IndexError
| AttributeError.



(* ===================================================================== *)
(** * The walker's monad: state and exceptions *)
(* ===================================================================== *)

Inductive outcome (A : Type) : Type :=
| Return (a : A)
| Raise (e : exception).
Arguments Return {A} a.
Arguments Raise {A} e.

(** A computation runs on a state and ends with a value or an exception;
    either way the state reached so far is kept. *)
Definition M (A : Type) : Type := state -> outcome A * state.

Definition ret {A} (a : A) : M A := fun st => (Return a, st).

Definition raise {A} (e : exception) : M A := fun st => (Raise e, st).

Definition bind {A B} (c : M A) (k : A -> M B) : M B :=
  fun st =>
    match c st with
    | (Return a, st') => k a st'
    | (Raise e, st') => (Raise e, st')
    end.

Declare Scope walker_scope.
Delimit Scope walker_scope with walker.
Notation "x <- c ;; k" := (bind c (fun x => k))
  (at level 100, c at next level, right associativity) : walker_scope.
Notation "c ;; k" := (bind c (fun _ => k))
  (at level 100, right associativity) : walker_scope.
Local Open Scope walker_scope.

Definition self_scope : M Scope := fun st => (Return (scope st), st).

Definition read_heap : M (list cell) := fun st => (Return (heap st), st).

Definition write_heap (h : list cell) : M unit :=
  fun st => (Return tt, mkState h (scope st)).

Fixpoint mapM {A B} (f : A -> M B) (l : list A) : M (list B) :=
  match l with
  | [] => ret []
  | x :: r => y <- f x ;; ys <- mapM f r ;; ret (y :: ys)
  end.

Fixpoint foldM {A B} (f : A -> B -> M A) (l : list B) (a : A) : M A :=
  match l with
  | [] => ret a
  | x :: r => a' <- f a x ;; foldM f r a'
  end.

(* ===================================================================== *)
(** * Scopes and entities on the heap *)
(* ===================================================================== *)

(** The names bound in the entity at [a]; an address without an entity
    binds nothing. *)
Definition members_at (h : list cell) (a : addr) : gmap key value :=
  from_option members ∅ (h !! a).

(** Modelled from the spec: section 4.1, "[lookup(name) -> value] walks
    this scope then each ancestor scope in order, returning the first
    match". *)
Fixpoint lookup_chain (h : list cell) (roots : list addr) (name : key)
  : option value :=
  match roots with
  | [] => None
  | a :: r =>
      match members_at h a !! name with
      | Some v => Some v
      | None => lookup_chain h r name
      end
  end.

Definition scope_lookup (h : list cell) (s : Scope) (name : key) : option value :=
  lookup_chain h (root s :: parents s) name.

(** Modelled from the spec: [Scope.__getitem__], section 4.1: the lookup
    "fails with a NameNotFound condition if no scope in the chain defines
    the name". *)
Definition getitem (s : Scope) (name : key) : M value :=
  fun st =>
    match scope_lookup (heap st) s name with
    | Some v => (Return v, st)
    | None => (Raise (NameNotFound name), st)
    end.

(** Modelled from the spec: [Scope.__contains__], section 4.1,
    "[contains(name) -> bool] mirrors lookup but never fails". *)
Definition contains (s : Scope) (name : key) : M bool :=
  fun st => (Return (bool_decide (is_Some (scope_lookup (heap st) s name))), st).

Definition bind_member (name : key) (v : value) (c : cell) : cell :=
  mkCell (instance c) (<[name := v]> (members c)) (anon c).

(** Modelled from the spec: [Scope.__setitem__], section 4.1,
    "[define(name, value)]: fails with NameConflict if [name] is already
    defined in *this* scope (shadowing an ancestor's name is allowed)".
    A scope whose root is not on the heap does not arise from the walker;
    binding into one is reported as [AttributeError]. *)
Definition setitem (s : Scope) (name : key) (v : value) : M unit :=
  fun st =>
    match heap st !! root s with
    | None => (Raise AttributeError, st)
    | Some c =>
        match members c !! name with
        | Some _ => (Raise (AtoNameConflictError (Cannot_redefine name)), st)
        | None =>
            (Return tt,
             mkState (<[root s := bind_member name v c]> (heap st)) (scope st))
        end
    end.

Definition add_anon (v : value) (c : cell) : cell :=
  mkCell (instance c) (members c) (anon c ++ [v]).

(** Modelled from the spec: [Scope.append_anon], section 4.1,
    "[append_anonymous(value)]: adds a value (e.g., a connect-statement
    Link) to an anonymous list that is not name-addressable but is
    retained in traversal order". *)
Definition append_anon (s : Scope) (v : value) : M unit :=
  fun st =>
    match heap st !! root s with
    | None => (Raise AttributeError, st)
    | Some c =>
        (Return tt, mkState (<[root s := add_anon v c]> (heap st)) (scope st))
    end.

(** Modelled from the spec: the constructor [Scope(entity)], section 4.4:
    "materialize (lazily) a scope rooted at that entity so subsequent
    segments resolve against its members". The entity is an object or a
    class; the new scope has no parent. *)
Definition Scope_over (v : value) : M Scope :=
  match v with
  | VObject a => ret (mkScope a [])
  | VClass c => ret (mkScope (id c) [])
  | _ => raise (TypeError "Scope() of a value that is no entity")
  end.

(** Allocation of a fresh entity at the end of the heap. *)
Definition alloc (c : cell) : M addr :=
  fun st => (Return (length (heap st)), mkState (heap st ++ [c]) (scope st)).

(** Modelled from the spec: [Class.make_instance], section 4.2,
    "[make_instance(class) -> Object]: allocates a fresh Object". *)
Definition make_instance (c : Class) : M value :=
  a <- alloc (mkCell (Some (types.mkObject c None None)) ∅ []) ;;
  ret (VObject a).

(** Modelled from the spec: [Class.make_subclass], section 4.2,
    "[make_subclass(name, parent) -> Class]: allocates a new Class whose
    resolution chain includes [parent]; fails if [parent] is not a
    Class". *)
Definition make_subclass (name : key) (parent : value) : M value :=
  match parent with
  | VClass p =>
      a <- alloc (mkCell None ∅ []) ;;
      ret (VClass (mkClass a name (Some p)))
  | _ => raise (TypeError "make_subclass: the parent is not a Class")
  end.

(** Modelled from the spec: the context manager [self.new_scope(entity)]
    (not in the sources), section 4.4: "open a new child Scope rooted at
    this class, recursively walk the block body within that scope, then
    close the scope". The enclosing scope is current again afterwards. *)
Definition new_scope {A} (entity : value) (body : M A) : M A :=
  outer <- self_scope ;;
  inner <- Scope_over entity ;;
  fun st =>
    let '(r, st') :=
      body (mkState (heap st) (mkScope (root inner) (root outer :: parents outer))) in
    (r, mkState (heap st') outer).

(** Reading and writing the fields of the object at an address. *)
Definition object_at (h : list cell) (a : addr) : option types.Object :=
  c ← h !! a; instance c.

Definition get_type_ (a : addr) : M Class :=
  fun st =>
    match object_at (heap st) a with
    | Some o => (Return (type_ o), st)
    | None => (Raise AttributeError, st)
    end.

Definition update_object (f : types.Object -> types.Object) (a : addr) : M unit :=
  fun st =>
    match heap st !! a with
    | Some (mkCell (Some o) m an) =>
        (Return tt, mkState (<[a := mkCell (Some (f o)) m an]> (heap st)) (scope st))
    | _ => (Raise AttributeError, st)
    end.

Definition set_type_ (a : addr) (c : Class) : M unit :=
  update_object (fun o => types.mkObject c (start o) (end_ o)) a.

Definition set_start (a : addr) (v : value) : M unit :=
  update_object (fun o => types.mkObject (type_ o) (Some v) (end_ o)) a.

Definition set_end (a : addr) (v : value) : M unit :=
  update_object (fun o => types.mkObject (type_ o) (start o) (Some v)) a.

(** [isinstance] tests on values: objects, classes and attributes are
    the three disjoint kinds the walker tells apart. *)
Definition isinstance_Object (v : value) : bool :=
  match v with VObject _ => true | _ => false end.

Definition isinstance_Class (v : value) : bool :=
  match v with VClass _ => true | _ => false end.

Definition isinstance_Attribute (v : value) : bool :=
  match v with VAttribute _ _ => true | _ => false end.

(** Modelled from the spec: the classes [types.InterfaceObject] and
    [types.LinkObject] (not in the sources). Section 4.4: "an
    Interface-typed Object (Pin and Signal are both Interface subtypes)":
    an object whose [type_] derives from the built-in class [base]. *)
Definition typed_as (h : list cell) (base : Class) (v : value) : bool :=
  match v with
  | VObject a =>
      match object_at h a with
      | Some o => is_subclass_of (type_ o) base
      | None => false
      end
  | _ => false
  end.

Definition isinstance_InterfaceObject (v : value) : M bool :=
  fun st => (Return (typed_as (heap st) types.INTERFACE v), st).

Definition isinstance_LinkObject (v : value) : M bool :=
  fun st => (Return (typed_as (heap st) types.LINK v), st).

(* ===================================================================== *)
(** * The data model of [datamodel1.py] *)
(* ===================================================================== *)

Definition Ref := list key.

Record Link : Type := mkLink {
  source : Ref;
  target : Ref
}.

Record Replace : Type := mkReplace {
  original : Ref;
  replacement : Ref
}.

Record Import : Type := mkImport {
  what : Ref;
  from_ : string
}.

(** The attrs class [Object] of [datamodel1.py]; every field has its
    factory's empty default. [locals_] is a [dict], kept in insertion
    order. The usage example that follows the class in the module is no
    part of the walker and is not embedded. *)
Inductive Object : Type := mkObject {
  supers : list Object;
  links : list Link;
  replace : list Replace;
  imports : list Import;
  locals_ : list (key * Object)
}.

Definition MODULE : Object := mkObject [] [] [] [] [].
Definition COMPONENT : Object := mkObject [MODULE] [] [] [] [].

Definition PIN : Object := mkObject [] [] [] [] [].
Definition SIGNAL : Object := mkObject [] [] [] [] [].
Definition INTERFACE : Object := mkObject [] [] [] [] [].

(* ===================================================================== *)
(** * The syntax tree

    The parser is external; these are the rule contexts the visitor is
    handed, with the children its methods ask for. A token is its text
    ([ctx.getText()]). *)
(* ===================================================================== *)

Definition NameContext := string.
Definition Totally_an_integerContext := string.
Definition StringContext := string.
Definition Boolean_Context := string.
Definition BlocktypeContext := string.

(** [attr: name ('.' name)+] *)
Definition AttrContext := list NameContext.

(** [name_or_attr: attr | name]; [Neither] is a context with neither
    child, which [visitName_or_attr] rejects. *)
Inductive Name_or_attrContext : Type :=
| Name (name : NameContext)
| Attr (attr : AttrContext)
| Neither.

(** [pindef_stmt: 'pin' (name | totally_an_integer)] *)
Inductive Pindef_stmtContext : Type :=
| PinInteger (totally_an_integer : Totally_an_integerContext)
| PinName (name : NameContext).

(** [signaldef_stmt: 'signal' name] *)
Definition Signaldef_stmtContext := NameContext.

(** [numerical_pin_ref: name_or_attr '.' totally_an_integer] *)
Record Numerical_pin_refContext : Type := mkNumerical_pin_ref {
  pin_owner : Name_or_attrContext;
  pin_number : Totally_an_integerContext
}.

(** [connectable: name_or_attr | numerical_pin_ref | signaldef_stmt
    | pindef_stmt] *)
Inductive ConnectableContext : Type :=
| ConnectName_or_attr (name_or_attr : Name_or_attrContext)
| ConnectNumerical_pin_ref (numerical_pin_ref : Numerical_pin_refContext)
| ConnectPindef_stmt (pindef_stmt : Pindef_stmtContext)
| ConnectSignaldef_stmt (signaldef_stmt : Signaldef_stmtContext).

(** [connect_stmt: connectable '~' connectable] *)
Record Connect_stmtContext : Type := mkConnect_stmt {
  connectable0 : ConnectableContext;
  connectable1 : ConnectableContext
}.

(** [new_stmt: 'new' name_or_attr] *)
Definition New_stmtContext := Name_or_attrContext.

(** [assignable: string | NUMBER | name_or_attr | new_stmt | boolean_] *)
Inductive AssignableContext : Type :=
| AssignName_or_attr (name_or_attr : Name_or_attrContext)
| AssignNew_stmt (new_stmt : New_stmtContext)
| AssignNUMBER (NUMBER : string)
| AssignString (string : StringContext)
| AssignBoolean_ (boolean_ : Boolean_Context).

(** [assign_stmt: name_or_attr '=' assignable] *)
Record Assign_stmtContext : Type := mkAssign_stmt {
  assign_target : Name_or_attrContext;
  assignable : AssignableContext
}.

(** [retype_stmt: name_or_attr '->' name_or_attr] *)
Record Retype_stmtContext : Type := mkRetype_stmt {
  name_or_attr0 : Name_or_attrContext;
  name_or_attr1 : Name_or_attrContext
}.

(** [import_stmt: 'import' name_or_attr 'from' string] *)
Record Import_stmtContext : Type := mkImport_stmt {
  import_what : Name_or_attrContext;
  import_from : StringContext
}.

(** [with_stmt: 'with' name_or_attr] *)
Definition With_stmtContext := Name_or_attrContext.

(** A statement; [Blockdef] is
    [blockdef: blocktype name ('from' name_or_attr)? ':' block], with the
    statements of its block. [FROM] tells whether the keyword is there. *)
Inductive StmtContext : Type :=
| Import_stmt (ctx : Import_stmtContext)
| Assign_stmt (ctx : Assign_stmtContext)
| Connect_stmt (ctx : Connect_stmtContext)
| Retype_stmt (ctx : Retype_stmtContext)
| Pindef_stmt (ctx : Pindef_stmtContext)
| Signaldef_stmt (ctx : Signaldef_stmtContext)
| With_stmt (ctx : With_stmtContext)
| Blockdef (blocktype : BlocktypeContext) (name : NameContext)
    (FROM : bool) (name_or_attr : option Name_or_attrContext)
    (block : list StmtContext).

(** [file_input: (NEWLINE | stmt)* EOF] *)
Definition File_inputContext := list StmtContext.

(** [ctx.getText()] of the contexts whose text the walker reads: the
    texts of the tokens, concatenated. *)
Definition getText_name_or_attr (ctx : Name_or_attrContext) : string :=
  match ctx with
  | Name n => n
  | Attr a => String.concat "." a
  | Neither => ""
  end.

Definition getText_pindef (ctx : Pindef_stmtContext) : string :=
  match ctx with
  | PinInteger t => "pin" ++ t
  | PinName n => "pin" ++ n
  end.

Definition getText_connectable (ctx : ConnectableContext) : string :=
  match ctx with
  | ConnectName_or_attr n => getText_name_or_attr n
  | ConnectNumerical_pin_ref r =>
      getText_name_or_attr (pin_owner r) ++ "." ++ pin_number r
  | ConnectPindef_stmt p => getText_pindef p
  | ConnectSignaldef_stmt s => "signal" ++ s
  end.

(* ===================================================================== *)
(** * The visitor [Dizzy] *)
(* ===================================================================== *)

Definition visitTotally_an_integer (ctx : Totally_an_integerContext) : M Z :=
  let text := ctx in
  match py_int text with
  | Some z => ret z
  | None => raise (AtoTypeError (Expected_an_integer text))
  end.

(** [visitFile_input] builds the root object and visits no child: the
    body of the file is not walked. *)
Definition visitFile_input (ctx : File_inputContext) : M Object :=
  ret (mkObject [MODULE] [] [] [] []).

Definition visitBlocktype (ctx : BlocktypeContext) : M Object :=
  let block_type_name := ctx in
  if String.eqb block_type_name "module" then ret MODULE
  else if String.eqb block_type_name "component" then ret COMPONENT
  else raise (AtoCompileError (Unknown_block_type block_type_name)).

Definition visitName (ctx : NameContext) : M key :=
  match py_int ctx with
  | Some z => ret (KInt z)
  | None => ret (KStr ctx)
  end.

Definition visitAttr (ctx : AttrContext) : M (list key) :=
  mapM visitName ctx.

(** One turn of the loop of [visitName_or_attr]: the scope to go on with
    after the segment [attr]. *)
Definition descend (scope : Scope) (attr : key) : M Scope :=
  v <- getitem scope attr ;;
  match v with
  | VScope s => ret s
  | VClass _ | VObject _ => Scope_over v
  | VAttribute type_ value =>
      match type_ with
      | TClass _ => Scope_over value
      | _ => raise (AtoTypeError (Not_an_object_or_class attr scope))
      end
  | _ => raise (AtoTypeError (Not_an_object_or_class attr scope))
  end.

Definition visitName_or_attr (ctx : Name_or_attrContext) : M (Scope * key) :=
  match ctx with
  | Name name =>
      scope <- self_scope ;;
      n <- visitName name ;;
      ret (scope, n)
  | Attr attr =>
      scope <- self_scope ;;
      path <- visitAttr attr ;;
      scope <- foldM descend (removelast path) scope ;;
      match last path with
      | Some n => ret (scope, n)
      | None => raise IndexError
      end
  | Neither => raise (AtoCompileError Expected_a_name_or_attribute)
  end.

(** [default_super, allowed_supers = self.visitBlocktype(...)]: the
    right-hand side is an attrs instance of [Object], which defines no
    [__iter__], so the unpacking raises Python's [TypeError]. *)
Definition unpack_Object (o : Object) : M (value * list value) :=
  raise (TypeError "cannot unpack non-iterable Object object").

(** [super_scope[super_name]] in [visitBlockdef], where the pair that
    [visitName_or_attr] returns was unpacked in the other order:
    [super_scope] is the name (an [int] or a [str]) and [super_name] the
    scope, and neither an [int] nor a [str] can be indexed by a scope. *)
Definition subscript_name (super_scope : key) (super_name : Scope) : M value :=
  match super_scope with
  | KInt _ => raise (TypeError "'int' object is not subscriptable")
  | KStr _ => raise (TypeError "string indices must be integers")
  end.

(** [visitBlockdef], over the computation [children] that
    [self.visitChildren(ctx)] stands for. *)
Definition visitBlockdef (blocktype : BlocktypeContext) (name : NameContext)
    (FROM : bool) (name_or_attr : option Name_or_attrContext)
    (children : M value) : M value :=
  new_class_name <- visitName name ;;
  scope <- self_scope ;;
  redefined <- contains scope new_class_name ;;
  if redefined then
    raise (AtoNameConflictError (Cannot_redefine new_class_name))
  else
    block_type <- visitBlocktype blocktype ;;
    supers <- unpack_Object block_type ;;
    let default_super := fst supers in
    let allowed_supers := snd supers in
    actual_super <-
      (if FROM then
         match name_or_attr with
         | None => raise (AtoCompileError Expected_a_name_after_from)
         | Some noa =>
             found <- visitName_or_attr noa ;;
             let super_name := fst found in
             let super_scope := snd found in
             actual_super <- subscript_name super_scope super_name ;;
             if negb (isinstance_Class actual_super) then
               raise (AtoTypeError (Can_only_subclass_classes super_name))
             else if negb (bool_decide (actual_super ∈ allowed_supers)) then
               raise (AtoTypeError (Can_only_subclass allowed_supers super_name))
             else ret actual_super
         end
       else ret default_super) ;;
    new_class <- make_subclass new_class_name actual_super ;;
    new_scope new_class children ;;
    ret new_class.

Definition visitPindef_stmt (ctx : Pindef_stmtContext) : M value :=
  name <-
    match ctx with
    | PinInteger t => z <- visitTotally_an_integer t ;; ret (KInt z)
    | PinName n => visitName n
    end ;;
  if negb (truthy name) then raise (AtoCompileError Pins_must_have_a_name)
  else
    scope <- self_scope ;;
    redefined <- contains scope name ;;
    if redefined then raise (AtoNameConflictError (Cannot_redefine name))
    else
      pin <- make_instance types.PIN ;;
      scope <- self_scope ;;
      setitem scope name pin ;;
      ret pin.

Definition visitSignaldef_stmt (ctx : Signaldef_stmtContext) : M value :=
  name <- visitName ctx ;;
  if negb (truthy name) then raise (AtoCompileError Signals_must_have_a_name)
  else
    scope <- self_scope ;;
    redefined <- contains scope name ;;
    if redefined then raise (AtoNameConflictError (Cannot_redefine name))
    else
      signal <- make_instance types.INTERFACE ;;
      scope <- self_scope ;;
      setitem scope name signal ;;
      ret signal.

Definition visitString (ctx : StringContext) : M string :=
  ret (strip_quotes ctx).

Definition visitImport_stmt (ctx : Import_stmtContext) : M value :=
  from_file <- visitString (import_from ctx) ;;
  found <- visitName_or_attr (import_what ctx) ;;
  let scope := fst found in
  let to_import := snd found in
  if String.eqb from_file "" then
    raise (AtoCompileError Expected_a_from_file_path)
  else if negb (truthy to_import) then
    raise (AtoCompileError Expected_a_name_to_import)
  else if bool_decide (to_import = KStr "*") then
    raise (NotImplementedError Import_star)
  else
    current <- self_scope ;;
    redefined <- contains current to_import ;;
    if redefined then raise (AtoNameConflictError (Cannot_redefine to_import))
    else
      imported <- getitem scope to_import ;;
      current <- self_scope ;;
      setitem current to_import imported ;;
      ret VNone.

(** [self.visit(ctx.numerical_pin_ref())]: [Dizzy] defines no method for
    this rule, so the visit falls to the generated visitor, which is not
    in the sources. It is taken here to do what a generated visitor does
    by default for a rule [name_or_attr '.' totally_an_integer]: visit
    the children in order and return the result of the last one. What is
    proved of a connectable of this kind takes the outcome of this visit
    as a hypothesis. *)
Definition visitNumerical_pin_ref (ctx : Numerical_pin_refContext) : M Z :=
  visitName_or_attr (pin_owner ctx) ;;
  visitTotally_an_integer (pin_number ctx).

(** The value a connectable stands for, before the interface check. *)
Definition resolve_connectable (ctx : ConnectableContext) : M value :=
  match ctx with
  | ConnectName_or_attr noa =>
      found <- visitName_or_attr noa ;;
      getitem (fst found) (snd found)
  | ConnectNumerical_pin_ref r =>
      pin_ref <- visitNumerical_pin_ref r ;;
      scope <- self_scope ;;
      getitem scope (KInt pin_ref)
  | ConnectPindef_stmt p => visitPindef_stmt p
  | ConnectSignaldef_stmt s => visitSignaldef_stmt s
  end.

(** [if isinstance(connectable, types.Attribute):
       connectable = connectable.value] *)
Definition unwrap_Attribute (v : value) : value :=
  match v with
  | VAttribute _ held => held
  | _ => v
  end.

Definition visitConnectable (ctx : ConnectableContext) : M value :=
  connectable <- resolve_connectable ctx ;;
  let connectable := unwrap_Attribute connectable in
  is_interface <- isinstance_InterfaceObject connectable ;;
  if negb is_interface then
    raise (AtoTypeError (Cannot_connect (getText_connectable ctx)))
  else ret connectable.

Definition setattr_object (f : types.Object -> types.Object) (v : value) : M unit :=
  match v with
  | VObject a => update_object f a
  | _ => raise AttributeError
  end.

Definition visitConnect_stmt (ctx : Connect_stmtContext) : M value :=
  start_ <- visitConnectable (connectable0 ctx) ;;
  end__ <- visitConnectable (connectable1 ctx) ;;
  link <- make_instance types.LINK ;;
  is_link <- isinstance_LinkObject link ;;
  if negb is_link then raise (AtoTypeError Unknown_error)
  else
    setattr_object (fun o => types.mkObject (type_ o) (Some start_) (end_ o)) link ;;
    setattr_object (fun o => types.mkObject (type_ o) (start o) (Some end__)) link ;;
    scope <- self_scope ;;
    append_anon scope link ;;
    ret link.

Definition visitWith_stmt (ctx : With_stmtContext) : M value :=
  raise (NotImplementedError No_message).

Definition visitNew_stmt (ctx : New_stmtContext) : M value :=
  found <- visitName_or_attr ctx ;;
  let scope := fst found in
  let name_to_init := snd found in
  to_init <- getitem scope name_to_init ;;
  match to_init with
  | VClass c => make_instance c
  | _ => raise (AtoTypeError (Can_only_initialise_classes name_to_init))
  end.

Definition visitBoolean_ (ctx : Boolean_Context) : M bool :=
  ret (String.eqb (lower ctx) "true").

Definition visitAssignable (ctx : AssignableContext) : M value :=
  match ctx with
  | AssignName_or_attr noa =>
      found <- visitName_or_attr noa ;;
      getitem (fst found) (snd found)
  | AssignNew_stmt n => visitNew_stmt n
  | AssignNUMBER number =>
      match py_float number with
      | Some value =>
          match float_to_int value with
          | Some z => ret (VInt z)
          | None => ret (VFloat value)
          end
      | None => raise (ValueError number)
      end
  | AssignString s => text <- visitString s ;; ret (VStr text)
  | AssignBoolean_ b => v <- visitBoolean_ b ;; ret (VBool v)
  end.

Definition visitAssign_stmt (ctx : Assign_stmtContext) : M value :=
  found <- visitName_or_attr (assign_target ctx) ;;
  let scope := fst found in
  let name := snd found in
  assignable <- visitAssignable (assignable ctx) ;;
  attr <-
    match assignable with
    | VObject a => t <- get_type_ a ;; ret (VAttribute (TClass t) assignable)
    | VClass _ => ret (VAttribute TPyClass assignable)
    | VAttribute t v => ret (VAttribute t v)
    | VInt _ => ret (VAttribute TPyInt assignable)
    | VBool _ => ret (VAttribute TPyBool assignable)
    | VFloat _ => ret (VAttribute TPyFloat assignable)
    | VStr _ => ret (VAttribute TPyStr assignable)
    | VScope _ | VNone => raise (UnboundLocalError "attr")
    end ;;
  setitem scope name attr ;;
  ret VNone.

Definition visitRetype_stmt (ctx : Retype_stmtContext) : M value :=
  found0 <- visitName_or_attr (name_or_attr0 ctx) ;;
  let obj_scope := fst found0 in
  let obj_name := snd found0 in
  found1 <- visitName_or_attr (name_or_attr1 ctx) ;;
  let target_scope := fst found1 in
  let target_name := snd found1 in
  obj <- getitem obj_scope obj_name ;;
  match obj with
  | VObject a =>
      target <- getitem target_scope target_name ;;
      match target with
      | VClass c =>
          current <- get_type_ a ;;
          if negb (is_subclass_of c current) then
            raise (AtoTypeError
                     (Cannot_retype obj_name target_name (types.name current)))
          else
            set_type_ a c ;;
            ret VNone
      | _ => raise (AtoTypeError (Can_only_retype_to_classes target_name))
      end
  | _ => raise (AtoTypeError (Can_only_retype_objects obj_name))
  end.

(** The dispatch of [visit] on a statement. For a block definition,
    [self.visitChildren(ctx)] visits the block type, the name, the
    superclass reference when there is one, and the statements of the
    block in order. *)
Fixpoint visitStmt (ctx : StmtContext) : M value :=
  match ctx with
  | Import_stmt c => visitImport_stmt c
  | Assign_stmt c => visitAssign_stmt c
  | Connect_stmt c => visitConnect_stmt c
  | Retype_stmt c => visitRetype_stmt c
  | Pindef_stmt c => visitPindef_stmt c
  | Signaldef_stmt c => visitSignaldef_stmt c
  | With_stmt c => visitWith_stmt c
  | Blockdef blocktype name FROM name_or_attr block =>
      visitBlockdef blocktype name FROM name_or_attr
        (visitBlocktype blocktype ;;
         visitName name ;;
         match name_or_attr with
         | Some noa => visitName_or_attr noa ;; ret tt
         | None => ret tt
         end ;;
         (fix visitBlock (stmts : list StmtContext) : M value :=
            match stmts with
            | [] => ret VNone
            | s :: rest => visitStmt s ;; visitBlock rest
            end) block)
  end.

(** The generated visitor's default for a sequence of statements: each
    is visited in turn, in one scope, and the first exception ends the
    walk. *)
Fixpoint visitStmts (stmts : list StmtContext) : M value :=
  match stmts with
  | [] => ret VNone
  | s :: rest => visitStmt s ;; visitStmts rest
  end.

(* ===================================================================== *)
(** * Derived notions, sample programs and sample states *)
(* ===================================================================== *)

(** A computation that only reads: whatever it ends with, the state is
    the one it started from. *)
Definition reads_only {A} (c : M A) : Prop :=
  forall st, snd (c st) = st.

(** The key a name token stands for. *)
Definition name_key (text : string) : key :=
  match py_int text with
  | Some z => KInt z
  | None => KStr text
  end.

Definition Resistor : Class :=
  mkClass 7 (KStr "Resistor") (Some types.COMPONENT).
Definition Resistor2 : Class :=
  mkClass 8 (KStr "Resistor2") (Some Resistor).
Definition Capacitor : Class :=
  mkClass 9 (KStr "Capacitor") (Some types.COMPONENT).

Definition empty_cell : cell := mkCell None ∅ [].

(** A heap with the six built-in classes at their addresses, a file entity
    at 6 that binds three component classes, and the entities of these
    classes; the current scope is the file's. *)
Definition library_cell : cell :=
  mkCell None
    (<[KStr "Resistor" := VClass Resistor]>
       (<[KStr "Resistor2" := VClass Resistor2]>
          (<[KStr "Capacitor" := VClass Capacitor]> ∅)))
    [].

Definition library_state : state :=
  mkState (replicate 6 empty_cell
             ++ [library_cell; empty_cell; empty_cell; empty_cell])
          (mkScope 6 []).

(** [module VDiv:] with the body of the round-trip scenario. *)
Definition VDiv_block : StmtContext :=
  Blockdef "module" "VDiv" false None
    [ Signaldef_stmt "top";
      Signaldef_stmt "out";
      Signaldef_stmt "bottom";
      Assign_stmt (mkAssign_stmt (Name "r_top") (AssignNew_stmt (Name "Resistor")));
      Assign_stmt (mkAssign_stmt (Name "r_bottom") (AssignNew_stmt (Name "Resistor")));
      Connect_stmt
        (mkConnect_stmt
           (ConnectNumerical_pin_ref (mkNumerical_pin_ref (Name "r_top") "2"))
           (ConnectName_or_attr (Name "out")));
      Connect_stmt
        (mkConnect_stmt
           (ConnectNumerical_pin_ref (mkNumerical_pin_ref (Name "r_bottom") "1"))
           (ConnectName_or_attr (Name "out")));
      Connect_stmt
        (mkConnect_stmt
           (ConnectNumerical_pin_ref (mkNumerical_pin_ref (Name "r_bottom") "2"))
           (ConnectName_or_attr (Name "bottom"))) ].

Definition VDiv_file : File_inputContext := [VDiv_block].

(** A file whose one block declares [pin p1] twice. *)
Definition twice_p1_file : File_inputContext :=
  [ Blockdef "component" "Twice" false None
      [ Pindef_stmt (PinName "p1"); Pindef_stmt (PinName "p1") ] ].

(** [keeps_objects c]: every object of the heap is, after [c], the object
    it was, with its [type_], [start] and [end_]. *)
Definition keeps_objects {A} (c : M A) : Prop :=
  forall st a o,
    object_at (heap st) a = Some o ->
    object_at (heap (snd (c st))) a = Some o.

(** The link a connect statement makes of two endpoints. *)
Definition link_cell (start_ end__ : value) : cell :=
  mkCell (Some (types.mkObject types.LINK (Some start_) (Some end__))) ∅ [].

(** Whether a statement is a retype statement. *)
Definition is_retype (ctx : StmtContext) : bool :=
  match ctx with
  | Retype_stmt _ => true
  | _ => false
  end.

(** A state in which the file binds the object [r], an instance of
    Resistor at address 10, directly. *)
Definition retype_state : state :=
  mkState (replicate 6 empty_cell
             ++ [ mkCell None (<[KStr "r" := VObject 10]> (members library_cell)) [];
                  empty_cell; empty_cell; empty_cell;
                  mkCell (Some (types.mkObject Resistor None None)) ∅ [] ])
          (mkScope 6 []).

Definition new_dummy : StmtContext :=
  Assign_stmt (mkAssign_stmt (Name "dummy") (AssignNew_stmt (Name "Resistor"))).

Definition retype_dummy (target : string) : StmtContext :=
  Retype_stmt (mkRetype_stmt (Name "dummy") (Name target)).

(** The file scope after [signal a] and [pin 1]. *)
Definition wired_state : state :=
  snd (visitStmts [Signaldef_stmt "a"; Pindef_stmt (PinInteger "1")] library_state).

(** [a ~ 1] *)
Definition a_to_1 : Connect_stmtContext :=
  mkConnect_stmt (ConnectName_or_attr (Name "a")) (ConnectName_or_attr (Name "1")).



(** [A = Resistor] *)
Definition alias_Resistor : StmtContext :=
  Assign_stmt (mkAssign_stmt (Name "A") (AssignName_or_attr (Name "Resistor"))).

(** A state in which the file binds [lib] to a scope over the entity at
    address 7, and that entity binds [Foo] to the class Capacitor. *)
Definition package_state : state :=
  mkState (replicate 6 empty_cell
             ++ [ mkCell None (<[KStr "lib" := VScope (mkScope 7 [])]> ∅) [];
                  mkCell None (<[KStr "Foo" := VClass Capacitor]> ∅) [] ])
          (mkScope 6 []).

(** [import Foo from 'lib.ato'] *)
Definition import_Foo : Import_stmtContext :=
  mkImport_stmt (Name "Foo") "'lib.ato'".

(** Texts of decimal digits only, and the digits of such a text. *)
Definition all_digits (text : string) : Prop :=
  forallb is_digit (list_ascii_of_string text) = true.

Definition digits (text : string) : list Z :=
  omap digit_of (list_ascii_of_string text).

(** Texts of ASCII characters: every byte is a character. *)
Definition ascii_text (text : string) : Prop :=
  Forall (fun c => (N_of_ascii c < 128)%N) (list_ascii_of_string text).



(** The key a pin declaration binds, when its token stands for one. *)
Definition pin_key (ctx : Pindef_stmtContext) : option key :=
  match ctx with
  | PinInteger t => KInt <$> py_int t
  | PinName n => Some (name_key n)
  end.

(** [grows st st']: from [st] to [st'] the current scope is the same, no
    entity is lost, every name bound in an entity is still bound to the
    same value, and the anonymous members of an entity are still there,
    in order, before any new one. *)
Definition grows (st st' : state) : Prop :=
  scope st' = scope st /\
  (length (heap st) <= length (heap st'))%nat /\
  (forall a k v,
     members_at (heap st) a !! k = Some v ->
     members_at (heap st') a !! k = Some v) /\
  (forall a c,
     heap st !! a = Some c ->
     exists c', heap st' !! a = Some c' /\ anon c `prefix_of` anon c').

(** A computation under which the state only grows, however it ends. *)
Definition append_only {A} (c : M A) : Prop :=
  forall st, grows st (snd (c st)).

(** The characters of a text are all quote characters. *)
Definition all_quotes (text : string) : Prop :=
  Forall (fun c => is_quote c = true) (list_ascii_of_string text).

(** A text that neither starts nor ends with a quote character. *)
Definition no_outer_quote (text : string) : Prop :=
  forall c,
    head (list_ascii_of_string text) = Some c \/
    last (list_ascii_of_string text) = Some c ->
    is_quote c = false.

(* ===================================================================== *)
(** * Running computations *)
(* ===================================================================== *)

Lemma bind_Return {A B} (c : M A) (k : A -> M B) st a st' :
  c st = (Return a, st') -> bind c k st = k a st'.
Proof. intros H. unfold bind. rewrite H. reflexivity. Qed.

Lemma bind_Raise {A B} (c : M A) (k : A -> M B) st e st' :
  c st = (Raise e, st') -> bind c k st = (Raise e, st').
Proof. intros H. unfold bind. rewrite H. reflexivity. Qed.

Lemma reads_only_ret {A} (a : A) : reads_only (ret a).
Proof. intros st. reflexivity. Qed.

Lemma reads_only_raise {A} e : reads_only (@raise A e).
Proof. intros st. reflexivity. Qed.

Lemma reads_only_bind {A B} (c : M A) (k : A -> M B) :
  reads_only c -> (forall a, reads_only (k a)) -> reads_only (bind c k).
Proof.
  intros Hc Hk st. unfold bind. specialize (Hc st).
  destruct (c st) as [[a | e] st']; simpl in Hc; subst st'.
  - apply Hk.
  - reflexivity.
Qed.

Lemma reads_only_self_scope : reads_only self_scope.
Proof. intros st. reflexivity. Qed.

Lemma reads_only_getitem s name : reads_only (getitem s name).
Proof. intros st. unfold getitem. destruct (scope_lookup _ _ _); reflexivity. Qed.

Lemma reads_only_contains s name : reads_only (contains s name).
Proof. intros st. reflexivity. Qed.

Lemma reads_only_get_type_ a : reads_only (get_type_ a).
Proof. intros st. unfold get_type_. destruct (object_at _ _); reflexivity. Qed.

Lemma reads_only_Scope_over v : reads_only (Scope_over v).
Proof. destruct v; intros st; reflexivity. Qed.

Lemma reads_only_mapM {A B} (f : A -> M B) l :
  (forall x, reads_only (f x)) -> reads_only (mapM f l).
Proof.
  intros Hf. induction l as [| x r IH]; simpl.
  - apply reads_only_ret.
  - apply reads_only_bind; [apply Hf |]. intros y.
    apply reads_only_bind; [apply IH |]. intros ys. apply reads_only_ret.
Qed.

Lemma reads_only_foldM {A B} (f : A -> B -> M A) l :
  (forall a x, reads_only (f a x)) -> forall a, reads_only (foldM f l a).
Proof.
  intros Hf. induction l as [| x r IH]; intros a; simpl.
  - apply reads_only_ret.
  - apply reads_only_bind; [apply Hf | apply IH].
Qed.

Create HintDb reads.
#[local] Hint Resolve reads_only_ret reads_only_raise reads_only_self_scope
  reads_only_getitem reads_only_contains reads_only_get_type_
  reads_only_Scope_over : reads.

Lemma visitName_run ctx st : visitName ctx st = (Return (name_key ctx), st).
Proof. unfold visitName, name_key. destruct (py_int ctx); reflexivity. Qed.

Lemma visitAttr_run ctx st : visitAttr ctx st = (Return (map name_key ctx), st).
Proof.
  unfold visitAttr. revert st. induction ctx as [| n r IH]; intros st; simpl.
  - reflexivity.
  - rewrite (bind_Return _ _ _ _ _ (visitName_run n st)).
    rewrite (bind_Return _ _ _ _ _ (IH st)). reflexivity.
Qed.

Lemma reads_only_visitName ctx : reads_only (visitName ctx).
Proof. intros st. rewrite visitName_run. reflexivity. Qed.

Lemma reads_only_visitAttr ctx : reads_only (visitAttr ctx).
Proof. intros st. rewrite visitAttr_run. reflexivity. Qed.

Lemma reads_only_descend s attr : reads_only (descend s attr).
Proof.
  unfold descend. apply reads_only_bind; [auto with reads |].
  intros [a | c | t v | s' | z | f | x | b |]; auto with reads.
  destruct t; auto with reads.
Qed.

Lemma reads_only_visitName_or_attr ctx : reads_only (visitName_or_attr ctx).
Proof.
  destruct ctx as [n | a |]; simpl; auto with reads.
  - apply reads_only_bind; [auto with reads |]. intros s.
    apply reads_only_bind; [apply reads_only_visitName |]. auto with reads.
  - apply reads_only_bind; [auto with reads |]. intros s.
    apply reads_only_bind; [apply reads_only_visitAttr |]. intros path.
    apply reads_only_bind; [apply reads_only_foldM, reads_only_descend |].
    intros s'. destruct (last path); auto with reads.
Qed.

(** A run of a reading computation, with the state put back. *)
Lemma reads_only_run {A} (c : M A) st :
  reads_only c -> c st = (fst (c st), st).
Proof. intros H. specialize (H st). destruct (c st); simpl in *; congruence. Qed.

(* ===================================================================== *)
(** * The file root and block definitions *)
(* ===================================================================== *)

(** Whatever the file holds, [visitFile_input] returns the same root. *)
Lemma visitFile_input_constant ctx st :
  visitFile_input ctx st = (Return (mkObject [MODULE] [] [] [] []), st).
Proof. reflexivity. Qed.

(** A block definition never returns: the name is taken, the block type
    is unknown, or the unpacking of the block type's base fails; nothing
    is created and nothing is bound. *)
Lemma visitBlockdef_never_returns blocktype name FROM name_or_attr children st :
  exists e,
    visitBlockdef blocktype name FROM name_or_attr children st = (Raise e, st) /\
    (e = AtoNameConflictError (Cannot_redefine (name_key name)) \/
     e = AtoCompileError (Unknown_block_type blocktype) \/
     e = TypeError "cannot unpack non-iterable Object object").
Proof.
  unfold visitBlockdef.
  rewrite (bind_Return _ _ _ _ _ (visitName_run name st)).
  unfold bind at 1. simpl.
  unfold bind at 1. simpl.
  destruct (bool_decide _).
  - eexists. split; [reflexivity | auto].
  - unfold visitBlocktype.
    destruct (String.eqb blocktype "module");
      [| destruct (String.eqb blocktype "component")];
      eexists; (split; [reflexivity | auto]).
Qed.

Lemma visitStmt_Blockdef_never_returns blocktype name FROM name_or_attr block st :
  exists e,
    visitStmt (Blockdef blocktype name FROM name_or_attr block) st = (Raise e, st).
Proof.
  simpl.
  destruct (visitBlockdef_never_returns blocktype name FROM name_or_attr
              (visitBlocktype blocktype;;
               visitName name;;
               match name_or_attr with
               | Some noa => visitName_or_attr noa;; ret tt
               | None => ret tt
               end;;
               (fix visitBlock (stmts : list StmtContext) : M value :=
                  match stmts with
                  | [] => ret VNone
                  | s :: rest => visitStmt s;; visitBlock rest
                  end) block) st) as (e & He & _).
  exists e. exact He.
Qed.

(** C1. Walking the file of the round-trip scenario returns a root whose
    [locals_] and [links] are empty: [visitFile_input] visits no child, so
    no object for VDiv is reachable from the root; and visiting the block
    definition itself raises Python's [TypeError] at the unpacking of the
    block type's base, before the body is walked. *)
Theorem VDiv_walk_builds_no_tree st :
  visitFile_input VDiv_file st = (Return (mkObject [MODULE] [] [] [] []), st) /\
  locals_ (mkObject [MODULE] [] [] [] []) = [] /\
  links (mkObject [MODULE] [] [] [] []) = [] /\
  visitStmts VDiv_file library_state =
    (Raise (TypeError "cannot unpack non-iterable Object object"), library_state).
Proof.
  split; [reflexivity |]. split; [reflexivity |]. split; [reflexivity |].
  vm_compute. reflexivity.
Qed.

(** C2. A block definition whose name is free, here [module VDiv:] in a
    scope that does not bind [VDiv], raises Python's [TypeError]: the
    block type's base is a single [Object], and [visitBlockdef] unpacks it
    as a pair. No class is created and the name stays unbound. *)
Theorem blockdef_with_free_name_raises :
  scope_lookup (heap library_state) (scope library_state) (KStr "VDiv") = None /\
  visitStmt VDiv_block library_state =
    (Raise (TypeError "cannot unpack non-iterable Object object"), library_state) /\
  visitStmt (Blockdef "component" "Resistor3" true (Some (Name "Resistor")) [])
    library_state =
    (Raise (TypeError "cannot unpack non-iterable Object object"), library_state).
Proof.
  split; [| split]; vm_compute; reflexivity.
Qed.

(** C7. For the file whose block declares [pin p1] twice, the file walk
    raises nothing and returns the root object: the block is not walked,
    so the conflict is not seen; and visiting
    the block definition itself stops at the unpacking of the block type's
    base, again before any pin is declared. *)
Theorem twice_p1_file_returns_a_root st :
  visitFile_input twice_p1_file st = (Return (mkObject [MODULE] [] [] [] []), st) /\
  visitStmts twice_p1_file library_state =
    (Raise (TypeError "cannot unpack non-iterable Object object"), library_state).
Proof. split; [reflexivity |]. vm_compute. reflexivity. Qed.

(* ===================================================================== *)
(** * The heap under binding and allocation *)
(* ===================================================================== *)

Lemma object_at_Some h a o :
  object_at h a = Some o <-> exists c, h !! a = Some c /\ instance c = Some o.
Proof.
  unfold object_at. destruct (h !! a) as [c |]; simpl; split.
  - intros H. exists c. auto.
  - intros (c' & Hc & Hi). congruence.
  - discriminate.
  - intros (c' & Hc & _). discriminate.
Qed.

Lemma object_at_lt h a o : object_at h a = Some o -> (a < length h)%nat.
Proof.
  intros (c & Hc & _)%object_at_Some. eapply lookup_lt_Some, Hc.
Qed.

Lemma object_at_app h c a o :
  object_at h a = Some o -> object_at (h ++ [c]) a = Some o.
Proof.
  intros H. pose proof (object_at_lt _ _ _ H) as Hlt.
  unfold object_at in *. rewrite lookup_app_l by exact Hlt. exact H.
Qed.

Lemma object_at_fresh h o m an :
  object_at (h ++ [mkCell (Some o) m an]) (length h) = Some o.
Proof.
  unfold object_at. rewrite lookup_app_r by lia.
  rewrite Nat.sub_diag. reflexivity.
Qed.

(** Updating an entity's members or anonymous list keeps every object. *)
Lemma object_at_insert_same_instance h a c c' b :
  h !! a = Some c -> instance c' = instance c ->
  object_at (<[a := c']> h) b = object_at h b.
Proof.
  intros Hc Hi. unfold object_at.
  destruct (decide (a = b)) as [-> | Hne].
  - rewrite list_lookup_insert_eq by (eapply lookup_lt_Some, Hc).
    rewrite Hc. simpl. exact Hi.
  - rewrite list_lookup_insert_ne by exact Hne. reflexivity.
Qed.

Lemma members_at_app_empty h i an a :
  members_at (h ++ [mkCell i ∅ an]) a = members_at h a.
Proof.
  unfold members_at. destruct (decide (a < length h)%nat) as [Hlt | Hge].
  - rewrite lookup_app_l by exact Hlt. reflexivity.
  - rewrite lookup_app_r by lia. rewrite (lookup_ge_None_2 h a) by lia.
    destruct (a - length h)%nat as [| n]; reflexivity.
Qed.

Lemma lookup_chain_ext h h' roots name :
  (forall a, members_at h' a = members_at h a) ->
  lookup_chain h' roots name = lookup_chain h roots name.
Proof.
  intros H. induction roots as [| a r IH]; simpl; [reflexivity |].
  rewrite H, IH. reflexivity.
Qed.

Lemma scope_lookup_app_empty h i an s name :
  scope_lookup (h ++ [mkCell i ∅ an]) s name = scope_lookup h s name.
Proof. apply lookup_chain_ext. intros a. apply members_at_app_empty. Qed.

Lemma scope_lookup_root h s name v :
  members_at h (root s) !! name = Some v -> scope_lookup h s name = Some v.
Proof. intros H. unfold scope_lookup. simpl. rewrite H. reflexivity. Qed.

Lemma members_at_insert h a c c' :
  h !! a = Some c -> members_at (<[a := c']> h) a = members c'.
Proof.
  intros Hc. unfold members_at.
  rewrite list_lookup_insert_eq by (eapply lookup_lt_Some, Hc). reflexivity.
Qed.

Lemma members_at_insert_ne h a b c' :
  a <> b -> members_at (<[a := c']> h) b = members_at h b.
Proof.
  intros Hne. unfold members_at.
  rewrite list_lookup_insert_ne by exact Hne. reflexivity.
Qed.

(** What a binding does, when it returns and when it raises. *)
Lemma setitem_inv s name v st r st' :
  setitem s name v st = (r, st') ->
  (exists c, heap st !! root s = Some c /\ members c !! name = None /\
             r = Return tt /\
             st' = mkState (<[root s := bind_member name v c]> (heap st)) (scope st))
  \/ (exists e, r = Raise e /\ st' = st).
Proof.
  unfold setitem. destruct (heap st !! root s) as [c |] eqn:Hc.
  - destruct (members c !! name) eqn:Hm; intros [= <- <-].
    + right. eauto.
    + left. exists c. auto.
  - intros [= <- <-]. right. eauto.
Qed.

Lemma setitem_free s name v st c :
  heap st !! root s = Some c -> members c !! name = None ->
  setitem s name v st =
    (Return tt, mkState (<[root s := bind_member name v c]> (heap st)) (scope st)).
Proof. intros Hc Hm. unfold setitem. rewrite Hc, Hm. reflexivity. Qed.

(** A name is visible in a scope when the lookup finds it. *)
Lemma contains_run s name st :
  contains s name st =
    (Return (bool_decide (is_Some (scope_lookup (heap st) s name))), st).
Proof. reflexivity. Qed.

Lemma getitem_Some s name st v :
  scope_lookup (heap st) s name = Some v -> getitem s name st = (Return v, st).
Proof. intros H. unfold getitem. rewrite H. reflexivity. Qed.

Lemma getitem_None s name st :
  scope_lookup (heap st) s name = None ->
  getitem s name st = (Raise (NameNotFound name), st).
Proof. intros H. unfold getitem. rewrite H. reflexivity. Qed.

Lemma get_type__Some a st o :
  object_at (heap st) a = Some o -> get_type_ a st = (Return (type_ o), st).
Proof. intros H. unfold get_type_. rewrite H. reflexivity. Qed.

Lemma update_object_Some f a st c o :
  heap st !! a = Some c -> instance c = Some o ->
  update_object f a st =
    (Return tt,
     mkState (<[a := mkCell (Some (f o)) (members c) (anon c)]> (heap st)) (scope st)).
Proof.
  intros Hc Hi. unfold update_object. rewrite Hc.
  destruct c as [i m an]. simpl in Hi. subst i. reflexivity.
Qed.

Lemma is_subclass_of_refl c : is_subclass_of c c = true.
Proof. destruct c as [i n s]. simpl. rewrite bool_decide_eq_true_2; reflexivity. Qed.

(* ===================================================================== *)
(** * Objects are kept: only a retype statement changes one *)
(* ===================================================================== *)

Lemma keeps_objects_reads {A} (c : M A) : reads_only c -> keeps_objects c.
Proof. intros H st a o Ho. rewrite H. exact Ho. Qed.

Lemma keeps_objects_ret {A} (a : A) : keeps_objects (ret a).
Proof. intros st b o Ho. exact Ho. Qed.

Lemma keeps_objects_raise {A} e : keeps_objects (@raise A e).
Proof. intros st b o Ho. exact Ho. Qed.

Lemma keeps_objects_bind {A B} (c : M A) (k : A -> M B) :
  keeps_objects c -> (forall a, keeps_objects (k a)) -> keeps_objects (bind c k).
Proof.
  intros Hc Hk st b o Ho. unfold bind. specialize (Hc st b o Ho).
  destruct (c st) as [[a | e] st']; simpl in *.
  - apply Hk, Hc.
  - exact Hc.
Qed.

Lemma keeps_objects_setitem s name v : keeps_objects (setitem s name v).
Proof.
  intros st b o Ho.
  destruct (setitem s name v st) as [r st'] eqn:E. simpl.
  apply setitem_inv in E as [(c & Hc & _ & _ & ->) | (e & _ & ->)]; [| exact Ho].
  simpl. rewrite (object_at_insert_same_instance _ _ c); auto.
Qed.

Lemma keeps_objects_append_anon s v : keeps_objects (append_anon s v).
Proof.
  intros st b o Ho. unfold append_anon.
  destruct (heap st !! root s) as [c |] eqn:Hc; simpl; [| exact Ho].
  rewrite (object_at_insert_same_instance _ _ c); auto.
Qed.

Lemma keeps_objects_make_instance c : keeps_objects (make_instance c).
Proof. intros st b o Ho. simpl. apply object_at_app, Ho. Qed.

Lemma keeps_objects_new_scope {A} entity (body : M A) :
  keeps_objects body -> keeps_objects (new_scope entity body).
Proof.
  intros Hb st b o Ho. unfold new_scope, bind, self_scope. simpl.
  destruct (Scope_over entity st) as [[inner | e] st1] eqn:E.
  - pose proof (reads_only_Scope_over entity st) as Hr.
    rewrite E in Hr. simpl in Hr. subst st1.
    specialize (Hb (mkState (heap st)
                      (mkScope (root inner) (root (scope st) :: parents (scope st))))
                   b o Ho).
    destruct (body _) as [r st2]. simpl in *. exact Hb.
  - pose proof (reads_only_Scope_over entity st) as Hr.
    rewrite E in Hr. simpl in Hr. subst st1. exact Ho.
Qed.

Ltac keeps :=
  repeat first
    [ apply keeps_objects_ret
    | apply keeps_objects_raise
    | apply keeps_objects_setitem
    | apply keeps_objects_append_anon
    | apply keeps_objects_make_instance
    | apply keeps_objects_reads; solve [auto with reads]
    | apply keeps_objects_bind; [| intros ?]
    | match goal with
      | |- keeps_objects (if ?b then _ else _) => destruct b
      | |- keeps_objects (match ?x with _ => _ end) => destruct x
      end ].

Lemma keeps_objects_visitName_or_attr ctx : keeps_objects (visitName_or_attr ctx).
Proof. apply keeps_objects_reads, reads_only_visitName_or_attr. Qed.

Lemma keeps_objects_visitTotally_an_integer ctx :
  keeps_objects (visitTotally_an_integer ctx).
Proof. unfold visitTotally_an_integer. keeps. Qed.

Lemma keeps_objects_visitName ctx : keeps_objects (visitName ctx).
Proof. apply keeps_objects_reads, reads_only_visitName. Qed.

Lemma keeps_objects_visitPindef_stmt ctx : keeps_objects (visitPindef_stmt ctx).
Proof.
  unfold visitPindef_stmt.
  apply keeps_objects_bind.
  - destruct ctx; [| apply keeps_objects_visitName].
    apply keeps_objects_bind; [apply keeps_objects_visitTotally_an_integer |].
    intros z. keeps.
  - intros name. keeps.
Qed.

Lemma keeps_objects_visitSignaldef_stmt ctx : keeps_objects (visitSignaldef_stmt ctx).
Proof.
  unfold visitSignaldef_stmt.
  apply keeps_objects_bind; [apply keeps_objects_visitName |]. intros name. keeps.
Qed.

Lemma keeps_objects_visitImport_stmt ctx : keeps_objects (visitImport_stmt ctx).
Proof.
  unfold visitImport_stmt, visitString.
  apply keeps_objects_bind; [keeps |]. intros from_file.
  apply keeps_objects_bind; [apply keeps_objects_visitName_or_attr |].
  intros found. keeps.
Qed.

Lemma keeps_objects_visitNew_stmt ctx : keeps_objects (visitNew_stmt ctx).
Proof.
  unfold visitNew_stmt.
  apply keeps_objects_bind; [apply keeps_objects_visitName_or_attr |].
  intros found. keeps.
Qed.

Lemma keeps_objects_visitAssignable ctx : keeps_objects (visitAssignable ctx).
Proof.
  destruct ctx; simpl.
  - apply keeps_objects_bind; [apply keeps_objects_visitName_or_attr |].
    intros found. keeps.
  - apply keeps_objects_visitNew_stmt.
  - keeps.
  - unfold visitString. keeps.
  - unfold visitBoolean_. keeps.
Qed.

Lemma keeps_objects_visitAssign_stmt ctx : keeps_objects (visitAssign_stmt ctx).
Proof.
  unfold visitAssign_stmt.
  apply keeps_objects_bind; [apply keeps_objects_visitName_or_attr |].
  intros found.
  apply keeps_objects_bind; [apply keeps_objects_visitAssignable |].
  intros v. keeps.
Qed.

Lemma keeps_objects_resolve_connectable ctx : keeps_objects (resolve_connectable ctx).
Proof.
  destruct ctx; simpl.
  - apply keeps_objects_bind; [apply keeps_objects_visitName_or_attr |].
    intros found. keeps.
  - unfold visitNumerical_pin_ref.
    apply keeps_objects_bind.
    + apply keeps_objects_bind; [apply keeps_objects_visitName_or_attr |].
      intros _. apply keeps_objects_visitTotally_an_integer.
    + intros z. keeps.
  - apply keeps_objects_visitPindef_stmt.
  - apply keeps_objects_visitSignaldef_stmt.
Qed.

Lemma reads_only_isinstance_InterfaceObject v :
  reads_only (isinstance_InterfaceObject v).
Proof. intros st. reflexivity. Qed.

Lemma keeps_objects_visitConnectable ctx : keeps_objects (visitConnectable ctx).
Proof.
  unfold visitConnectable.
  apply keeps_objects_bind; [apply keeps_objects_resolve_connectable |].
  intros v.
  apply keeps_objects_bind;
    [apply keeps_objects_reads, reads_only_isinstance_InterfaceObject |].
  intros b. keeps.
Qed.

(* ===================================================================== *)
(** * Connect statements *)
(* ===================================================================== *)

Lemma typed_as_fresh h c m an base :
  typed_as (h ++ [mkCell (Some (types.mkObject c None None)) m an]) base
    (VObject (length h)) = is_subclass_of c base.
Proof. unfold typed_as. rewrite object_at_fresh. reflexivity. Qed.

Lemma insert_fresh (h : list cell) (c c' : cell) :
  <[length h := c']> (h ++ [c]) = h ++ [c'].
Proof.
  rewrite insert_app_r_alt by lia. rewrite Nat.sub_diag. reflexivity.
Qed.

Lemma lookup_fresh (h : list cell) (c : cell) : (h ++ [c]) !! length h = Some c.
Proof. rewrite lookup_app_r by lia. rewrite Nat.sub_diag. reflexivity. Qed.

(** The run of a connect statement whose two operands are interfaces:
    the link is allocated at the end of the heap, given its endpoints and
    appended to the anonymous members of the current scope's entity. *)
Lemma visitConnect_stmt_run ctx st start_ st1 end__ st2 :
  visitConnectable (connectable0 ctx) st = (Return start_, st1) ->
  visitConnectable (connectable1 ctx) st1 = (Return end__, st2) ->
  visitConnect_stmt ctx st =
    let h := heap st2 ++ [link_cell start_ end__] in
    let link := VObject (length (heap st2)) in
    match h !! root (scope st2) with
    | Some c => (Return link, mkState (<[root (scope st2) := add_anon link c]> h) (scope st2))
    | None => (Raise AttributeError, mkState h (scope st2))
    end.
Proof.
  intros H0 H1. unfold visitConnect_stmt.
  rewrite (bind_Return _ _ _ _ _ H0), (bind_Return _ _ _ _ _ H1).
  unfold make_instance, alloc, isinstance_LinkObject, bind, ret. simpl.
  rewrite object_at_fresh. simpl type_. rewrite is_subclass_of_refl. simpl.
  unfold update_object. simpl. rewrite lookup_fresh. simpl.
  rewrite insert_fresh, lookup_fresh. simpl. rewrite insert_fresh.
  unfold append_anon. simpl. unfold link_cell.
  destruct (_ !! root (scope st2)); reflexivity.
Qed.

Lemma keeps_objects_visitConnect_stmt ctx : keeps_objects (visitConnect_stmt ctx).
Proof.
  intros st a o Ho.
  destruct (visitConnectable (connectable0 ctx) st) as [[start_ | e] st1] eqn:H0.
  - pose proof (keeps_objects_visitConnectable (connectable0 ctx) st a o Ho) as Ho1.
    rewrite H0 in Ho1. simpl in Ho1.
    destruct (visitConnectable (connectable1 ctx) st1) as [[end__ | e] st2] eqn:H1.
    + pose proof (keeps_objects_visitConnectable (connectable1 ctx) st1 a o Ho1) as Ho2.
      rewrite H1 in Ho2. simpl in Ho2.
      rewrite (visitConnect_stmt_run _ _ _ _ _ _ H0 H1). simpl.
      pose proof (object_at_app _ (link_cell start_ end__) _ _ Ho2) as Ho3.
      destruct (_ !! root (scope st2)) as [c |] eqn:Hc; simpl; [| exact Ho3].
      rewrite (object_at_insert_same_instance _ _ c); auto.
    + pose proof (keeps_objects_visitConnectable (connectable1 ctx) st1 a o Ho1) as Ho2.
      rewrite H1 in Ho2. simpl in Ho2.
      unfold visitConnect_stmt.
      rewrite (bind_Return _ _ _ _ _ H0), (bind_Raise _ _ _ _ _ H1). exact Ho2.
  - pose proof (keeps_objects_visitConnectable (connectable0 ctx) st a o Ho) as Ho1.
    rewrite H0 in Ho1. simpl in Ho1.
    unfold visitConnect_stmt. rewrite (bind_Raise _ _ _ _ _ H0). exact Ho1.
Qed.

(** Every statement that is not a retype statement keeps the objects. *)
Lemma keeps_objects_other_statements ctx :
  is_retype ctx = false -> keeps_objects (visitStmt ctx).
Proof.
  destruct ctx as [c | c | c | c | c | c | c | bt n F noa block]; intros Hr;
    try discriminate.
  - apply keeps_objects_visitImport_stmt.
  - apply keeps_objects_visitAssign_stmt.
  - apply keeps_objects_visitConnect_stmt.
  - apply keeps_objects_visitPindef_stmt.
  - apply keeps_objects_visitSignaldef_stmt.
  - apply keeps_objects_raise.
  - intros st a o Ho.
    destruct (visitStmt_Blockdef_never_returns bt n F noa block st) as (e & He).
    rewrite He. exact Ho.
Qed.

(* ===================================================================== *)
(** * Retype statements *)
(* ===================================================================== *)

Section Retype.

Variable ctx : Retype_stmtContext.
Variable st : state.
Variables obj_scope target_scope : Scope.
Variables obj_name target_name : key.

Hypothesis object_operand :
  visitName_or_attr (name_or_attr0 ctx) st = (Return (obj_scope, obj_name), st).
Hypothesis target_operand :
  visitName_or_attr (name_or_attr1 ctx) st = (Return (target_scope, target_name), st).

Lemma retype_of_a_non_object obj :
  scope_lookup (heap st) obj_scope obj_name = Some obj ->
  isinstance_Object obj = false ->
  visitRetype_stmt ctx st =
    (Raise (AtoTypeError (Can_only_retype_objects obj_name)), st).
Proof using object_operand target_operand.
  intros Hobj Hno. unfold visitRetype_stmt.
  rewrite (bind_Return _ _ _ _ _ object_operand).
  rewrite (bind_Return _ _ _ _ _ target_operand). simpl.
  rewrite (bind_Return _ _ _ _ _ (getitem_Some _ _ _ _ Hobj)).
  destruct obj; try reflexivity. discriminate.
Qed.

Lemma retype_to_a_non_class a target :
  scope_lookup (heap st) obj_scope obj_name = Some (VObject a) ->
  scope_lookup (heap st) target_scope target_name = Some target ->
  isinstance_Class target = false ->
  visitRetype_stmt ctx st =
    (Raise (AtoTypeError (Can_only_retype_to_classes target_name)), st).
Proof using object_operand target_operand.
  intros Hobj Htarget Hno. unfold visitRetype_stmt.
  rewrite (bind_Return _ _ _ _ _ object_operand).
  rewrite (bind_Return _ _ _ _ _ target_operand). simpl.
  rewrite (bind_Return _ _ _ _ _ (getitem_Some _ _ _ _ Hobj)).
  rewrite (bind_Return _ _ _ _ _ (getitem_Some _ _ _ _ Htarget)).
  destruct target; try reflexivity. discriminate.
Qed.

Lemma retype_to_a_class a entity o c :
  scope_lookup (heap st) obj_scope obj_name = Some (VObject a) ->
  heap st !! a = Some entity -> instance entity = Some o ->
  scope_lookup (heap st) target_scope target_name = Some (VClass c) ->
  visitRetype_stmt ctx st =
    if is_subclass_of c (type_ o) then
      (Return VNone,
       mkState (<[a := mkCell (Some (types.mkObject c (start o) (end_ o)))
                         (members entity) (anon entity)]> (heap st))
               (scope st))
    else
      (Raise (AtoTypeError
                (Cannot_retype obj_name target_name (types.name (type_ o)))), st).
Proof using object_operand target_operand.
  intros Hobj Hentity Ho Htarget. unfold visitRetype_stmt.
  rewrite (bind_Return _ _ _ _ _ object_operand).
  rewrite (bind_Return _ _ _ _ _ target_operand). simpl.
  rewrite (bind_Return _ _ _ _ _ (getitem_Some _ _ _ _ Hobj)).
  rewrite (bind_Return _ _ _ _ _ (getitem_Some _ _ _ _ Htarget)).
  assert (Hat : object_at (heap st) a = Some o)
    by (apply object_at_Some; eauto).
  rewrite (bind_Return _ _ _ _ _ (get_type__Some _ _ _ Hat)).
  destruct (is_subclass_of c (type_ o)); simpl; [| reflexivity].
  unfold set_type_.
  rewrite (bind_Return _ _ _ _ _ (update_object_Some _ _ _ _ _ Hentity Ho)).
  reflexivity.
Qed.

End Retype.

(** A retype statement that raises leaves the state as it was. *)
Lemma retype_failure_changes_nothing ctx st e st' :
  visitRetype_stmt ctx st = (Raise e, st') -> st' = st.
Proof.
  unfold visitRetype_stmt. intros H.
  pose proof (reads_only_visitName_or_attr (name_or_attr0 ctx) st) as R0.
  unfold bind at 1 in H.
  destruct (visitName_or_attr (name_or_attr0 ctx) st) as [[found0 | e0] s0];
    simpl in R0; subst s0; [| congruence].
  pose proof (reads_only_visitName_or_attr (name_or_attr1 ctx) st) as R1.
  unfold bind at 1 in H.
  destruct (visitName_or_attr (name_or_attr1 ctx) st) as [[found1 | e1] s1];
    simpl in R1; subst s1; [| congruence].
  unfold bind at 1, getitem at 1 in H.
  destruct (scope_lookup (heap st) (fst found0) (snd found0)) as [obj |];
    [| congruence].
  destruct obj; try (unfold raise in H; congruence).
  unfold bind at 1, getitem at 1 in H.
  destruct (scope_lookup (heap st) (fst found1) (snd found1)) as [target |];
    [| congruence].
  destruct target; try (unfold raise in H; congruence).
  unfold bind at 1, get_type_ at 1 in H.
  destruct (object_at (heap st) a) as [o |] eqn:Ho; [| congruence].
  destruct (is_subclass_of c (type_ o)); simpl in H;
    [| unfold raise in H; congruence].
  apply object_at_Some in Ho as (entity & Hentity & Hi).
  unfold set_type_ in H.
  rewrite (bind_Return _ _ _ _ _ (update_object_Some _ _ _ _ _ Hentity Hi)) in H.
  discriminate.
Qed.

(** C3. A retype statement whose operands resolve to [(obj_scope,
    obj_name)] and [(target_scope, target_name)]: when [obj_name] is bound
    to something that is not an object it raises [AtoTypeError]; when the
    object is there and [target_name] is bound to something that is not a
    class it raises [AtoTypeError]; when the target is a class that is not
    a subclass of the object's current [type_] it raises [AtoTypeError];
    otherwise the object's [type_] becomes the target class, in place, and
    nothing else on the heap changes. No statement of another kind changes
    an object. *)
Theorem retype_stmt_checks_then_retypes
    ctx st obj_scope obj_name target_scope target_name obj :
  visitName_or_attr (name_or_attr0 ctx) st = (Return (obj_scope, obj_name), st) ->
  visitName_or_attr (name_or_attr1 ctx) st = (Return (target_scope, target_name), st) ->
  scope_lookup (heap st) obj_scope obj_name = Some obj ->
  (isinstance_Object obj = false ->
   visitRetype_stmt ctx st =
     (Raise (AtoTypeError (Can_only_retype_objects obj_name)), st)) /\
  (forall a entity o target,
     obj = VObject a ->
     heap st !! a = Some entity -> instance entity = Some o ->
     scope_lookup (heap st) target_scope target_name = Some target ->
     (isinstance_Class target = false ->
      visitRetype_stmt ctx st =
        (Raise (AtoTypeError (Can_only_retype_to_classes target_name)), st)) /\
     (forall c, target = VClass c ->
        (is_subclass_of c (type_ o) = false ->
         visitRetype_stmt ctx st =
           (Raise (AtoTypeError
                     (Cannot_retype obj_name target_name (types.name (type_ o)))),
            st)) /\
        (is_subclass_of c (type_ o) = true ->
         exists st',
           visitRetype_stmt ctx st = (Return VNone, st') /\
           object_at (heap st') a = Some (types.mkObject c (start o) (end_ o)) /\
           (forall b, b <> a -> heap st' !! b = heap st !! b) /\
           members_at (heap st') a = members_at (heap st) a /\
           scope st' = scope st))) /\
  (forall other, is_retype other = false -> keeps_objects (visitStmt other)).
Proof.
  intros H0 H1 Hobj. split; [| split].
  - intros Hno. eapply retype_of_a_non_object; eauto.
  - intros a entity o target -> Hentity Ho Htarget. split.
    + intros Hno. eapply retype_to_a_non_class; eauto.
    + intros c ->.
      pose proof (retype_to_a_class ctx st _ _ _ _ H0 H1 a entity o c
                    Hobj Hentity Ho Htarget) as Hrun.
      split; intros Hsub; rewrite Hsub in Hrun; [exact Hrun |].
      eexists. split; [exact Hrun |]. simpl. repeat split.
      * unfold object_at.
        rewrite list_lookup_insert_eq by (eapply lookup_lt_Some, Hentity).
        reflexivity.
      * intros b Hb. apply list_lookup_insert_ne. congruence.
      * rewrite (members_at_insert _ _ _ _ Hentity). unfold members_at.
        rewrite Hentity. reflexivity.
  - apply keeps_objects_other_statements.
Qed.

Lemma retype_stmt_checks_then_retypes_witness :
  visitName_or_attr (Name "r") retype_state
    = (Return (mkScope 6 [], KStr "r"), retype_state) /\
  visitName_or_attr (Name "Resistor2") retype_state
    = (Return (mkScope 6 [], KStr "Resistor2"), retype_state) /\
  scope_lookup (heap retype_state) (mkScope 6 []) (KStr "r") = Some (VObject 10) /\
  (exists st',
     visitRetype_stmt (mkRetype_stmt (Name "r") (Name "Resistor2")) retype_state
       = (Return VNone, st') /\
     object_at (heap st') 10 = Some (types.mkObject Resistor2 None None)).
Proof.
  assert (H0 : visitName_or_attr (Name "r") retype_state
               = (Return (mkScope 6 [], KStr "r"), retype_state))
    by (vm_compute; reflexivity).
  assert (H1 : visitName_or_attr (Name "Resistor2") retype_state
               = (Return (mkScope 6 [], KStr "Resistor2"), retype_state))
    by (vm_compute; reflexivity).
  assert (H2 : scope_lookup (heap retype_state) (mkScope 6 []) (KStr "r")
               = Some (VObject 10))
    by (vm_compute; reflexivity).
  split; [exact H0 |]. split; [exact H1 |]. split; [exact H2 |].
  destruct (retype_stmt_checks_then_retypes
              (mkRetype_stmt (Name "r") (Name "Resistor2")) retype_state
              _ _ _ _ _ H0 H1 H2) as (_ & Hobject & _).
  destruct (Hobject 10 (mkCell (Some (types.mkObject Resistor None None)) ∅ [])
              (types.mkObject Resistor None None) (VClass Resistor2)
              eq_refl eq_refl eq_refl) as (_ & Hclass).
  { vm_compute. reflexivity. }
  destruct (Hclass Resistor2 eq_refl) as (_ & Hsub).
  destruct Hsub as (st' & Hrun & Hat & _).
  { vm_compute. reflexivity. }
  exists st'. split; [exact Hrun | exact Hat].
Defined.

(** C4. The retype scenario, [dummy = new Resistor] followed by
    [dummy -> Resistor2] with Resistor2 a subclass of Resistor: the
    assignment binds [dummy] to an attribute that holds the new object,
    and the retype statement, which does not look inside attributes,
    raises [AtoTypeError]; the object's [type_] stays Resistor. *)
Theorem retype_of_assigned_dummy_raises :
  let st1 := snd (visitStmt new_dummy library_state) in
  is_subclass_of Resistor2 Resistor = true /\
  fst (visitStmt new_dummy library_state) = Return VNone /\
  scope_lookup (heap st1) (scope st1) (KStr "dummy")
    = Some (VAttribute (TClass Resistor) (VObject 10)) /\
  object_at (heap st1) 10 = Some (types.mkObject Resistor None None) /\
  visitStmt (retype_dummy "Resistor2") st1
    = (Raise (AtoTypeError (Can_only_retype_objects (KStr "dummy"))), st1).
Proof.
  repeat (split; [vm_compute; reflexivity |]). vm_compute. reflexivity.
Qed.

(* ===================================================================== *)
(** * The connectable rule *)
(* ===================================================================== *)

Lemma visitConnectable_resolved ctx st v st' :
  resolve_connectable ctx st = (Return v, st') ->
  visitConnectable ctx st =
    (if typed_as (heap st') types.INTERFACE (unwrap_Attribute v)
     then Return (unwrap_Attribute v)
     else Raise (AtoTypeError (Cannot_connect (getText_connectable ctx))), st').
Proof.
  intros H. unfold visitConnectable. rewrite (bind_Return _ _ _ _ _ H).
  unfold bind, isinstance_InterfaceObject.
  destruct (typed_as _ _ _); reflexivity.
Qed.



(* ===================================================================== *)
(** * Dotted paths *)
(* ===================================================================== *)

(** What one segment of a path does, by the value the segment is bound
    to: the test on an attribute looks at its [type_], which is a class
    only when the attribute was made from an object. *)
Lemma descend_run s attr st v :
  scope_lookup (heap st) s attr = Some v ->
  descend s attr st =
    (match v with
     | VScope s' => Return s'
     | VObject a => Return (mkScope a [])
     | VClass c => Return (mkScope (id c) [])
     | VAttribute (TClass _) (VObject a) => Return (mkScope a [])
     | VAttribute (TClass _) (VClass c) => Return (mkScope (id c) [])
     | VAttribute (TClass _) _ => Raise (TypeError "Scope() of a value that is no entity")
     | _ => Raise (AtoTypeError (Not_an_object_or_class attr s))
     end, st).
Proof.
  intros H. unfold descend. rewrite (bind_Return _ _ _ _ _ (getitem_Some _ _ _ _ H)).
  destruct v as [a | c | t w | s' | z | f | x | b |]; try reflexivity.
  destruct t; try reflexivity. destruct w; reflexivity.
Qed.

Lemma descend_unbound s attr st :
  scope_lookup (heap st) s attr = None ->
  descend s attr st = (Raise (NameNotFound attr), st).
Proof.
  intros H. unfold descend. apply bind_Raise, getitem_None, H.
Qed.

(** The final segment is returned as a name, unresolved, with the scope
    the segments before it lead to. *)
Lemma visitName_or_attr_Attr attr st :
  visitName_or_attr (Attr attr) st =
    (match foldM descend (removelast (map name_key attr)) (scope st) st with
     | (Return s, _) =>
         match last (map name_key attr) with
         | Some n => Return (s, n)
         | None => Raise IndexError
         end
     | (Raise e, _) => Raise e
     end, st).
Proof.
  simpl. unfold bind at 1, self_scope at 1.
  rewrite (bind_Return _ _ _ _ _ (visitAttr_run attr st)).
  pose proof (reads_only_foldM descend (removelast (map name_key attr))
                reads_only_descend (scope st) st) as R.
  unfold bind.
  destruct (foldM _ _ _ st) as [[s | e] st1]; simpl in R; subst st1;
    [| reflexivity].
  destruct (last _); reflexivity.
Qed.

(** C6. After [A = Resistor], [A] is bound to an attribute that holds the
    class Resistor, and the path [A.x] raises [AtoTypeError] naming [A]:
    the walker tests the attribute's [type_], which for a held class is
    the Python class [types.Class] and no instance of it. The same path
    through the class itself, and through an attribute that holds an
    object, descends. *)
Theorem path_through_class_attribute_raises :
  let st1 := snd (visitStmt alias_Resistor library_state) in
  let st2 := snd (visitStmt new_dummy st1) in
  fst (visitStmt alias_Resistor library_state) = Return VNone /\
  scope_lookup (heap st1) (scope st1) (KStr "A")
    = Some (VAttribute TPyClass (VClass Resistor)) /\
  visitName_or_attr (Attr ["A"; "x"]) st1
    = (Raise (AtoTypeError (Not_an_object_or_class (KStr "A") (scope st1))), st1) /\
  visitName_or_attr (Attr ["Resistor"; "x"]) st1
    = (Return (mkScope 7 [], KStr "x"), st1) /\
  visitName_or_attr (Attr ["dummy"; "x"]) st2
    = (Return (mkScope 10 [], KStr "x"), st2).
Proof.
  repeat (split; [vm_compute; reflexivity |]). vm_compute. reflexivity.
Qed.

(* ===================================================================== *)
(** * Import statements *)
(* ===================================================================== *)

Lemma scope_lookup_None_root h s name :
  scope_lookup h s name = None -> members_at h (root s) !! name = None.
Proof.
  unfold scope_lookup. simpl.
  destruct (members_at h (root s) !! name); [discriminate | reflexivity].
Qed.

Lemma members_at_Some h a c : h !! a = Some c -> members_at h a = members c.
Proof. intros H. unfold members_at. rewrite H. reflexivity. Qed.

(** C8. [import Foo from 'lib.ato'], in a state where the scope of
    [lib.ato] (the scope over the entity at address 7) exports [Foo] as
    the class Capacitor and [Foo] is free in the current scope: the
    statement does not bind [Foo]. It resolves the plain name against the
    current scope itself and, having just checked that the name is absent
    from it, looks the name up there: the lookup fails with
    [NameNotFound] and the state is as before. The file string is only
    tested for emptiness: with a dotted path the same class is imported
    under a file string that names no file at all. *)
Theorem import_Foo_from_lib_raises :
  strip_quotes (import_from import_Foo) = "lib.ato" /\
  scope_lookup (heap package_state) (mkScope 7 []) (KStr "Foo")
    = Some (VClass Capacitor) /\
  scope_lookup (heap package_state) (scope package_state) (KStr "Foo") = None /\
  visitImport_stmt import_Foo package_state
    = (Raise (NameNotFound (KStr "Foo")), package_state) /\
  (exists st',
     visitImport_stmt (mkImport_stmt (Attr ["lib"; "Foo"]) "'?'") package_state
       = (Return VNone, st') /\
     scope_lookup (heap st') (scope st') (KStr "Foo") = Some (VClass Capacitor)).
Proof.
  split; [vm_compute; reflexivity |].
  split; [vm_compute; reflexivity |].
  split; [vm_compute; reflexivity |].
  split; [vm_compute; reflexivity |].
  eexists. split; vm_compute; reflexivity.
Qed.

(* ===================================================================== *)
(** * Texts *)
(* ===================================================================== *)

Lemma lstrip_with_head f l c r : lstrip_with f l = c :: r -> f c = false.
Proof.
  induction l as [| a l IH]; simpl; [discriminate |].
  destruct (f a) eqn:E; [exact IH |]. intros [= <- _]. exact E.
Qed.

Lemma lstrip_with_keep f l :
  (forall c, head l = Some c -> f c = false) -> lstrip_with f l = l.
Proof.
  destruct l as [| a l]; simpl; [reflexivity |].
  intros H. rewrite (H a eq_refl). reflexivity.
Qed.

Lemma lstrip_with_app f q l :
  Forall (fun c => f c = true) q -> lstrip_with f (q ++ l) = lstrip_with f l.
Proof.
  induction 1 as [| a q Ha _ IH]; simpl; [reflexivity |].
  rewrite Ha. exact IH.
Qed.

Lemma lstrip_with_all f q :
  Forall (fun c => f c = true) q -> lstrip_with f q = [].
Proof.
  intros H. rewrite <- (app_nil_r q). rewrite (lstrip_with_app _ _ _ H). reflexivity.
Qed.

Lemma lstrip_with_suffix f l : exists q, l = q ++ lstrip_with f l.
Proof.
  induction l as [| a l (q & IH)]; simpl; [exists []; reflexivity |].
  destruct (f a).
  - exists (a :: q). simpl. congruence.
  - exists []. reflexivity.
Qed.

Lemma head_rev {A} (l : list A) : head (rev l) = last l.
Proof.
  induction l as [| x l _] using rev_ind; [reflexivity |].
  rewrite rev_unit, last_snoc. reflexivity.
Qed.

Lemma last_rev {A} (l : list A) : last (rev l) = head l.
Proof. destruct l as [| a l]; [reflexivity |]. simpl. apply last_snoc. Qed.

(** Stripping a text between two runs of strippable characters gives the
    text, when neither of its ends is strippable. *)
Lemma strip_with_between f q s q' :
  Forall (fun c => f c = true) q ->
  Forall (fun c => f c = true) q' ->
  (forall c, head s = Some c \/ last s = Some c -> f c = false) ->
  strip_with f (q ++ s ++ q') = s.
Proof.
  intros Hq Hq' Hs. unfold strip_with. rewrite (lstrip_with_app _ _ _ Hq).
  destruct s as [| c r].
  - simpl. rewrite (lstrip_with_all _ _ Hq'). reflexivity.
  - rewrite (lstrip_with_keep f ((c :: r) ++ q')) by (intros d [= <-]; auto).
    rewrite rev_app_distr.
    rewrite lstrip_with_app by (apply Forall_rev, Hq').
    rewrite lstrip_with_keep; [apply rev_involutive |].
    intros d Hd. rewrite head_rev in Hd. auto.
Qed.

(** What is left after stripping has no strippable end. *)
Lemma strip_with_ends f l c :
  head (strip_with f l) = Some c \/ last (strip_with f l) = Some c ->
  f c = false.
Proof.
  unfold strip_with. rewrite head_rev, last_rev.
  set (l1 := lstrip_with f l). set (X := lstrip_with f (rev l1)).
  intros [H | H].
  - destruct (lstrip_with_suffix f (rev l1)) as (q & Hq). fold X in Hq.
    assert (Hlast : last (rev l1) = Some c)
      by (rewrite Hq, last_app, H; reflexivity).
    rewrite last_rev in Hlast. apply head_Some in Hlast as (r & Hr).
    eapply lstrip_with_head, Hr.
  - apply head_Some in H as (r & Hr). eapply lstrip_with_head, Hr.
Qed.

Lemma list_ascii_of_string_app (a b : string) :
  list_ascii_of_string (a ++ b)%string
    = list_ascii_of_string a ++ list_ascii_of_string b.
Proof. induction a as [| c a IH]; simpl; [reflexivity |]. rewrite IH. reflexivity. Qed.



Lemma strip_with_keep f l :
  (forall c, head l = Some c \/ last l = Some c -> f c = false) ->
  strip_with f l = l.
Proof.
  intros H. pose proof (strip_with_between f [] l [] (List.Forall_nil _) (List.Forall_nil _) H) as E.
  simpl in E. rewrite app_nil_r in E. exact E.
Qed.

(** A text of bytes below 128 is its own list of code points, and the
    transformation keeps every character but DEL. *)
Lemma utf8_decode_ascii l :
  Forall (fun c => (N_of_ascii c < 128)%N) l ->
  utf8_decode l = Some (map N_of_ascii l).
Proof.
  induction 1 as [| c l Hc _ IH]; simpl; [reflexivity |].
  rewrite (proj2 (N.ltb_lt _ _) Hc), IH. reflexivity.
Qed.

Lemma TransformDecimalAndSpaceToASCII_ascii text :
  ascii_text text ->
  TransformDecimalAndSpaceToASCII text
    = Some (map (fun c => ascii_of_code_point (N_of_ascii c))
                (list_ascii_of_string text)).
Proof.
  intros H. unfold TransformDecimalAndSpaceToASCII.
  rewrite (utf8_decode_ascii _ H). simpl. rewrite map_map. reflexivity.
Qed.

Lemma ascii_of_code_point_keeps c :
  (N_of_ascii c < 127)%N -> ascii_of_code_point (N_of_ascii c) = c.
Proof.
  intros H. unfold ascii_of_code_point.
  rewrite (proj2 (N.ltb_lt _ _) H). apply ascii_N_embedding.
Qed.


Lemma is_digit_code c :
  is_digit c = true -> (48 <= N_of_ascii c <= 57)%N.
Proof.
  unfold is_digit, digit_of, nat_of_ascii.
  destruct (_ && _) eqn:E; [| discriminate]. intros _.
  apply andb_true_iff in E as [E1 E2].
  apply Nat.leb_le in E1, E2. lia.
Qed.

Lemma is_digit_is_space c : is_digit c = true -> is_space c = false.
Proof.
  intros H. apply is_digit_code in H. unfold is_space, nat_of_ascii.
  apply orb_false_iff. split.
  - apply andb_false_iff. right. apply Nat.leb_gt. lia.
  - apply Nat.eqb_neq. lia.
Qed.

Lemma all_digits_Forall text :
  all_digits text -> Forall (fun c => is_digit c = true) (list_ascii_of_string text).
Proof.
  intros H. apply List.Forall_forall. intros c Hc.
  exact (proj1 (forallb_forall _ _) H c Hc).
Qed.

Lemma Transform_all_digits text :
  all_digits text ->
  TransformDecimalAndSpaceToASCII text = Some (list_ascii_of_string text).
Proof.
  intros H. apply all_digits_Forall in H.
  rewrite TransformDecimalAndSpaceToASCII_ascii.
  - f_equal. induction H as [| c l Hc _ IH]; simpl; [reflexivity |].
    rewrite IH, ascii_of_code_point_keeps; [reflexivity |].
    apply is_digit_code in Hc. lia.
  - unfold ascii_text. eapply Forall_impl; [exact H |].
    intros c Hc. apply is_digit_code in Hc. lia.
Qed.

Lemma strip_all_digits l :
  Forall (fun c => is_digit c = true) l -> strip_with is_space l = l.
Proof.
  intros H. apply strip_with_keep. intros c Hc.
  apply is_digit_is_space.
  rewrite List.Forall_forall in H. apply H.
  destruct Hc as [Hc | Hc].
  - apply head_Some in Hc as (r & ->). left. reflexivity.
  - apply last_Some in Hc as (r & ->). apply in_or_app. right. left. reflexivity.
Qed.

Lemma filter_all_digits l :
  Forall (fun c => is_digit c = true) l -> List.filter is_digit l = l.
Proof.
  induction 1 as [| c l Hc _ IH]; simpl; [reflexivity |].
  rewrite Hc, IH. reflexivity.
Qed.

Lemma more_digits_all_digits l acc :
  Forall (fun c => is_digit c = true) l ->
  more_digits acc l
    = Some (fold_left (fun a d => 10 * a + d)%Z (omap digit_of l) acc).
Proof.
  intros H. revert acc. induction H as [| c l Hc _ IH]; intros acc; simpl;
    [reflexivity |].
  unfold is_digit in Hc. destruct (digit_of c) as [d |]; [| discriminate].
  simpl. apply IH.
Qed.



Lemma length_list_ascii_of_string s :
  length (list_ascii_of_string s) = String.length s.
Proof. induction s as [| c s IH]; simpl; [reflexivity | rewrite IH; reflexivity]. Qed.

(** [int] on a text of digits only: the number they write in base ten,
    unless there are more of them than [max_str_digits]. *)
Lemma py_int_all_digits text :
  all_digits text -> text <> "" ->
  py_int text =
    if (max_str_digits <? N.of_nat (String.length text))%N then None
    else Some (decimal_value (digits text)).
Proof.
  intros Hall Hne. unfold py_int. rewrite (Transform_all_digits _ Hall).
  pose proof (all_digits_Forall _ Hall) as H.
  cbv zeta. rewrite (strip_all_digits _ H), (filter_all_digits _ H).
  rewrite length_list_ascii_of_string.
  destruct (_ <? _)%N; [reflexivity |].
  unfold digits, decimal_value.
  destruct text as [| c s]; [congruence |]. simpl in *.
  inversion H as [| ? ? Hc Hs]; subst.
  pose proof Hc as Hc'. unfold is_digit in Hc'.
  unfold unsigned_int.
  assert (Hsign : (nat_of_ascii c =? 45)%nat = false /\ (nat_of_ascii c =? 43)%nat = false).
  { apply is_digit_code in Hc. unfold nat_of_ascii.
    split; apply Nat.eqb_neq; lia. }
  destruct Hsign as [-> ->].
  destruct (digit_of c) as [d |]; [| discriminate]. simpl.
  apply more_digits_all_digits, Hs.
Qed.


Lemma round_to_double_exact negative M :
  (0 < M < 2 ^ 53)%Z ->
  round_to_double negative M 0
    = Finite negative (M * 2 ^ (52 - Z.log2 M)) (Z.log2 M - 52).
Proof.
  intros HM.
  assert (Hb : (0 <= Z.log2 M <= 52)%Z).
  { split; [apply Z.log2_nonneg |].
    assert (Z.log2 M < 53)%Z by (apply Z.log2_lt_pow2; lia). lia. }
  pose proof (Z.log2_spec M ltac:(lia)) as Hspec.
  set (b := Z.log2 M) in *.
  assert (Hm : Z.log2 (M * 2 ^ (52 - b)) = 52%Z).
  { rewrite Z.log2_mul_pow2 by lia. fold b. lia. }
  assert (Hlt : (M * 2 ^ (52 - b) < 2 ^ 53)%Z).
  { apply Z.log2_lt_pow2; [| lia].
    apply Z.mul_pos_pos; [lia |]. apply Z.pow_pos_nonneg; lia. }
  unfold round_to_double.
  rewrite (proj2 (Z.eqb_neq M 0)) by lia.
  fold b.
  replace (1025 <=? b + 3 * 0)%Z with false by (symmetry; apply Z.leb_gt; lia).
  cbn [Z.leb Z.ltb Z.compare andb Z.opp].
  change (10 ^ 0)%Z with 1%Z. rewrite Z.mul_1_r.
  change (Z.log2 1) with 0%Z. rewrite Z.sub_0_r. fold b.
  replace (Z.max 0 b) with b by lia.
  replace (Z.max 0 (- b)) with 0%Z by lia.
  change (2 ^ 0)%Z with 1%Z. rewrite !Z.mul_1_r, !Z.mul_1_l.
  rewrite (proj2 (Z.leb_le (2 ^ b) M)) by lia.
  replace (Z.max (b - 52) (-1074)) with (b - 52)%Z by lia.
  replace (Z.max 0 (- (b - 52))) with (52 - b)%Z by lia.
  replace (Z.max 0 (b - 52)) with 0%Z by lia.
  change (2 ^ 0)%Z with 1%Z.
  rewrite !Z.div_1_r, !Z.mod_1_r.
  change (1 <? 2 * 0)%Z with false. change (2 * 0 =? 1)%Z with false.
  cbn [orb andb].
  rewrite (proj2 (Z.eqb_neq (M * 2 ^ (52 - b)) 0)) by lia.
  rewrite Hm.
  replace (1024 <=? 52 + (b - 52))%Z with false by (symmetry; apply Z.leb_gt; lia).
  rewrite (proj2 (Z.eqb_neq _ (2 ^ 53))) by lia.
  reflexivity.
Qed.

Lemma float_to_int_round_to_double negative M :
  (0 <= M < 2 ^ 53)%Z ->
  float_to_int (round_to_double negative M 0)
    = Some (if negative then - M else M)%Z.
Proof.
  intros HM. destruct (Z.eq_dec M 0%Z) as [-> | Hne].
  - destruct negative; reflexivity.
  - rewrite round_to_double_exact by lia.
    assert (Hb : (0 <= Z.log2 M <= 52)%Z).
    { split; [apply Z.log2_nonneg |].
      assert (Z.log2 M < 53)%Z by (apply Z.log2_lt_pow2; lia). lia. }
    set (b := Z.log2 M) in *. unfold float_to_int.
    destruct (Z.leb_spec 0 (b - 52)) as [Hge | Hlt].
    + replace (b - 52)%Z with 0%Z by lia. replace (52 - b)%Z with 0%Z by lia.
      change (2 ^ 0)%Z with 1%Z. rewrite !Z.mul_1_r. reflexivity.
    + replace (- (b - 52))%Z with (52 - b)%Z by lia.
      assert (Hp : (0 < 2 ^ (52 - b))%Z) by (apply Z.pow_pos_nonneg; lia).
      rewrite Z.mod_mul by lia. rewrite Z.div_mul by lia. reflexivity.
Qed.


Lemma is_digit_is_underscore c : is_digit c = true -> is_underscore c = false.
Proof.
  intros H. apply is_digit_code in H. unfold is_underscore, nat_of_ascii.
  apply Nat.eqb_neq. lia.
Qed.

Lemma drop_underscores_all_digits l :
  Forall (fun c => is_digit c = true) l ->
  forall prev,
    match prev with Some p => is_underscore p = false | None => True end ->
    drop_underscores prev l = Some l.
Proof.
  induction 1 as [| c l Hc _ IH]; intros prev Hprev; simpl.
  - destruct prev as [p |]; [rewrite Hprev |]; reflexivity.
  - pose proof (is_digit_is_underscore _ Hc) as Hu. rewrite Hu.
    rewrite (IH (Some c) Hu).
    destruct prev as [p |]; [rewrite Hprev |]; reflexivity.
Qed.

Lemma take_digits_all_digits l :
  Forall (fun c => is_digit c = true) l ->
  take_digits l = (omap digit_of l, []).
Proof.
  induction 1 as [| c l Hc _ IH]; simpl; [reflexivity |].
  unfold is_digit in Hc. destruct (digit_of c) as [d |]; [| discriminate].
  rewrite IH. reflexivity.
Qed.

Lemma digit_of_range c d : digit_of c = Some d -> (0 <= d <= 9)%Z.
Proof.
  unfold digit_of. destruct (_ && _) eqn:E; [| discriminate].
  apply andb_true_iff in E as [E1 E2]. apply Nat.leb_le in E1, E2.
  intros [= <-]. lia.
Qed.

Lemma decimal_value_nonneg l :
  (0 <= decimal_value (omap digit_of l))%Z.
Proof.
  unfold decimal_value.
  assert (H : forall acc, (0 <= acc)%Z ->
            (0 <= fold_left (fun a d => 10 * a + d) (omap digit_of l) acc)%Z).
  { induction l as [| c l IH]; intros acc Hacc; simpl; [exact Hacc |].
    destruct (digit_of c) as [d |] eqn:E; simpl; [| apply IH, Hacc].
    apply IH. apply digit_of_range in E. lia. }
  apply H. lia.
Qed.

(** [float] on a text of digits only: the double nearest to the number
    they write in base ten. *)
Lemma py_float_all_digits text :
  all_digits text -> text <> "" ->
  py_float text = Some (round_to_double false (decimal_value (digits text)) 0).
Proof.
  intros Hall Hne. unfold py_float. rewrite (Transform_all_digits _ Hall).
  pose proof (all_digits_Forall _ Hall) as H.
  rewrite (drop_underscores_all_digits _ H None I).
  rewrite (strip_all_digits _ H).
  unfold digits.
  destruct (list_ascii_of_string text) as [| c l] eqn:El.
  { destruct text; [congruence | discriminate]. }
  unfold parse_float.
  assert (Hsign : take_sign (c :: l) = (false, c :: l)).
  { inversion H as [| ? ? Hc _]; subst. apply is_digit_code in Hc.
    unfold take_sign, nat_of_ascii.
    rewrite (proj2 (Nat.eqb_neq _ 45)) by lia.
    rewrite (proj2 (Nat.eqb_neq _ 43)) by lia. reflexivity. }
  rewrite Hsign, (take_digits_all_digits _ H).
  rewrite app_nil_r.
  inversion H as [| ? ? Hc _]; subst.
  unfold is_digit in Hc. simpl.
  destruct (digit_of c) as [d |]; [| discriminate]. reflexivity.
Qed.

(* ===================================================================== *)
(** * Integer tokens *)
(* ===================================================================== *)



(* ===================================================================== *)
(** * Declarations and the keys they bind *)
(* ===================================================================== *)

(** The common end of a pin and of a signal declaration: an instance of
    the class is made and bound under the name in the current scope. *)
Lemma declare_Return c name st v st' :
  (x <- make_instance c ;;
   scope <- self_scope ;;
   setitem scope name x ;;
   ret x) st = (Return v, st') ->
  v = VObject (length (heap st)) /\
  scope st' = scope st /\
  members_at (heap st') (root (scope st)) !! name = Some v /\
  (forall k, k <> name ->
     members_at (heap st') (root (scope st)) !! k
       = members_at (heap st) (root (scope st)) !! k).
Proof.
  unfold make_instance, alloc, self_scope, bind, ret. simpl.
  destruct (setitem _ _ _ _) as [[u | e] st2] eqn:E; [| discriminate].
  intros [= <- <-].
  apply setitem_inv in E as [(entity & Hentity & Hfree & _ & ->) | (e & He & _)];
    [| discriminate].
  simpl in *. repeat split.
  - rewrite (members_at_insert _ _ _ _ Hentity). simpl. apply lookup_insert_eq.
  - intros k Hk. rewrite (members_at_insert _ _ _ _ Hentity). simpl.
    rewrite lookup_insert_ne by congruence.
    rewrite <- (members_at_Some _ _ _ Hentity).
    rewrite members_at_app_empty. reflexivity.
Qed.

Lemma visitSignaldef_stmt_run ctx st :
  visitSignaldef_stmt ctx st =
    if negb (truthy (name_key ctx)) then
      (Raise (AtoCompileError Signals_must_have_a_name), st)
    else if bool_decide (is_Some (scope_lookup (heap st) (scope st) (name_key ctx))) then
      (Raise (AtoNameConflictError (Cannot_redefine (name_key ctx))), st)
    else
      (x <- make_instance types.INTERFACE ;;
       scope <- self_scope ;;
       setitem scope (name_key ctx) x ;;
       ret x) st.
Proof.
  unfold visitSignaldef_stmt.
  rewrite (bind_Return _ _ _ _ _ (visitName_run ctx st)).
  destruct (negb (truthy (name_key ctx))); [reflexivity |].
  unfold bind at 1, self_scope at 1. unfold bind at 1. rewrite contains_run.
  destruct (bool_decide _); reflexivity.
Qed.

Lemma visitPindef_stmt_run ctx st :
  visitPindef_stmt ctx st =
    match pin_key ctx with
    | None =>
        (Raise (AtoTypeError
                  (Expected_an_integer
                     match ctx with PinInteger t => t | PinName n => n end)), st)
    | Some name =>
        if negb (truthy name) then
          (Raise (AtoCompileError Pins_must_have_a_name), st)
        else if bool_decide (is_Some (scope_lookup (heap st) (scope st) name)) then
          (Raise (AtoNameConflictError (Cannot_redefine name)), st)
        else
          (x <- make_instance types.PIN ;;
           scope <- self_scope ;;
           setitem scope name x ;;
           ret x) st
    end.
Proof.
  unfold visitPindef_stmt. destruct ctx as [t | n]; simpl.
  - unfold visitTotally_an_integer.
    destruct (py_int t) as [z |]; [| reflexivity].
    cbn [fmap option_fmap option_map].
    assert (Hz : (z0 <- ret z ;; ret (KInt z0)) st = (Return (KInt z), st))
      by reflexivity.
    rewrite (bind_Return _ _ _ _ _ Hz).
    destruct (negb (truthy (KInt z))); [reflexivity |].
    unfold bind at 1, self_scope at 1. unfold bind at 1. rewrite contains_run.
    destruct (bool_decide _); reflexivity.
  - rewrite (bind_Return _ _ _ _ _ (visitName_run n st)).
    destruct (negb (truthy (name_key n))); [reflexivity |].
    unfold bind at 1, self_scope at 1. unfold bind at 1. rewrite contains_run.
    destruct (bool_decide _); reflexivity.
Qed.

(** A pin declared a second time in the scope of the first declaration
    raises [AtoNameConflictError], and the state stays as the first
    declaration left it. *)
Lemma pindef_twice_conflicts ctx st pin st1 :
  visitPindef_stmt ctx st = (Return pin, st1) ->
  exists name,
    pin_key ctx = Some name /\
    visitPindef_stmt ctx st1 =
      (Raise (AtoNameConflictError (Cannot_redefine name)), st1).
Proof.
  rewrite visitPindef_stmt_run. intros H.
  destruct (pin_key ctx) as [name |] eqn:Hkey; [| discriminate].
  exists name. split; [reflexivity |].
  destruct (negb (truthy name)) eqn:Htruthy; [discriminate |].
  destruct (bool_decide _); [discriminate |].
  apply declare_Return in H as (_ & Hscope & Hbound & _).
  rewrite visitPindef_stmt_run, Hkey, Htruthy.
  rewrite bool_decide_eq_true_2; [reflexivity |].
  exists pin. apply scope_lookup_root. rewrite Hscope. exact Hbound.
Qed.

(** An assignment that returns has bound an attribute under the name its
    target resolves to, in the scope the target resolves to. *)
Lemma visitAssign_stmt_Return ctx st r st' :
  visitAssign_stmt ctx st = (Return r, st') ->
  exists target_scope name v t held st1,
    visitName_or_attr (assign_target ctx) st = (Return (target_scope, name), st) /\
    visitAssignable (assignable ctx) st = (Return v, st1) /\
    setitem target_scope name (VAttribute t held) st1 = (Return tt, st').
Proof.
  unfold visitAssign_stmt. intros H.
  pose proof (reads_only_visitName_or_attr (assign_target ctx) st) as R.
  unfold bind at 1 in H.
  destruct (visitName_or_attr (assign_target ctx) st) as [[[S n] | e] s0];
    simpl in R; subst s0; [| discriminate].
  cbn [fst snd] in H. unfold bind at 1 in H.
  destruct (visitAssignable (assignable ctx) st) as [[v | e] st1] eqn:Hv;
    [| discriminate].
  unfold bind at 1 in H.
  assert (Hattr : forall t held,
            (setitem S n (VAttribute t held);; ret VNone) st1 = (Return r, st') ->
            setitem S n (VAttribute t held) st1 = (Return tt, st')).
  { intros t held. unfold bind, ret.
    destruct (setitem _ _ _ _) as [[[] | e] s2]; [| discriminate].
    intros [= _ <-]. reflexivity. }
  destruct v as [a | c | t w | s' | z | f | x | b |]; simpl in H;
    try discriminate;
    try (exists S, n; eexists; eexists; eexists; exists st1;
         split; [reflexivity | split; [reflexivity | apply Hattr, H]]).
  unfold bind at 1, get_type_ at 1 in H.
  destruct (object_at (heap st1) a) as [o |]; [| discriminate].
  simpl in H.
  exists S, n. eexists. eexists. eexists. exists st1.
  split; [reflexivity | split; [reflexivity | apply Hattr, H]].
Qed.

(* ===================================================================== *)
(** * The state only grows *)
(* ===================================================================== *)

Lemma grows_refl st : grows st st.
Proof.
  split; [reflexivity |]. split; [lia |]. split; [auto |].
  intros a c Hc. exists c. split; [exact Hc | reflexivity].
Qed.

Lemma grows_trans st1 st2 st3 : grows st1 st2 -> grows st2 st3 -> grows st1 st3.
Proof.
  intros (S1 & L1 & M1 & A1) (S2 & L2 & M2 & A2).
  split; [congruence |]. split; [lia |]. split; [auto |].
  intros a c Hc. destruct (A1 a c Hc) as (c' & Hc' & P1).
  destruct (A2 a c' Hc') as (c'' & Hc'' & P2).
  exists c''. split; [exact Hc'' | etrans; eassumption].
Qed.

Lemma append_only_reads {A} (c : M A) : reads_only c -> append_only c.
Proof. intros H st. rewrite H. apply grows_refl. Qed.

Lemma append_only_ret {A} (a : A) : append_only (ret a).
Proof. intros st. apply grows_refl. Qed.

Lemma append_only_raise {A} e : append_only (@raise A e).
Proof. intros st. apply grows_refl. Qed.

Lemma append_only_bind {A B} (c : M A) (k : A -> M B) :
  append_only c -> (forall a, append_only (k a)) -> append_only (bind c k).
Proof.
  intros Hc Hk st. unfold bind. specialize (Hc st).
  destruct (c st) as [[a | e] st']; simpl in *.
  - eapply grows_trans; [exact Hc | apply Hk].
  - exact Hc.
Qed.

(** Replacing an entity by one with at least its members and anonymous
    members, in place. *)
Lemma grows_insert st a c c' :
  heap st !! a = Some c ->
  (forall k v, members c !! k = Some v -> members c' !! k = Some v) ->
  anon c `prefix_of` anon c' ->
  grows st (mkState (<[a := c']> (heap st)) (scope st)).
Proof.
  intros Hc Hm Ha. split; [reflexivity |]. simpl.
  split; [rewrite length_insert; lia |]. split.
  - intros b k v Hb. destruct (decide (a = b)) as [<- | Hne].
    + rewrite (members_at_insert _ _ _ _ Hc).
      rewrite (members_at_Some _ _ _ Hc) in Hb. auto.
    + rewrite members_at_insert_ne by exact Hne. exact Hb.
  - intros b d Hd. destruct (decide (a = b)) as [<- | Hne].
    + exists c'. split.
      * apply list_lookup_insert_eq. eapply lookup_lt_Some, Hc.
      * congruence.
    + exists d. split; [| reflexivity].
      rewrite list_lookup_insert_ne by exact Hne. exact Hd.
Qed.

Lemma grows_app st c :
  members c = ∅ -> grows st (mkState (heap st ++ [c]) (scope st)).
Proof.
  intros Hm. split; [reflexivity |]. simpl.
  split; [rewrite length_app; lia |]. split.
  - intros a k v Ha. destruct c as [i m an]. simpl in Hm. subst m.
    rewrite members_at_app_empty. exact Ha.
  - intros a d Hd. exists d. split; [| reflexivity].
    rewrite lookup_app_l by (eapply lookup_lt_Some, Hd). exact Hd.
Qed.

Lemma append_only_setitem s name v : append_only (setitem s name v).
Proof.
  intros st. destruct (setitem s name v st) as [r st'] eqn:E. simpl.
  apply setitem_inv in E as [(c & Hc & Hfree & _ & ->) | (e & _ & ->)];
    [| apply grows_refl].
  apply (grows_insert _ _ c); [exact Hc | | reflexivity].
  intros k w Hk. simpl. rewrite lookup_insert_ne; [exact Hk |].
  intros <-. congruence.
Qed.

Lemma append_only_append_anon s v : append_only (append_anon s v).
Proof.
  intros st. unfold append_anon.
  destruct (heap st !! root s) as [c |] eqn:Hc; simpl; [| apply grows_refl].
  apply (grows_insert _ _ c); [exact Hc | auto |].
  simpl. apply prefix_app_r. reflexivity.
Qed.

Lemma append_only_make_instance c : append_only (make_instance c).
Proof. intros st. simpl. apply grows_app. reflexivity. Qed.

Lemma append_only_update_object f a : append_only (update_object f a).
Proof.
  intros st. unfold update_object.
  destruct (heap st !! a) as [[[o |] m an] |] eqn:Hc; simpl;
    try apply grows_refl.
  apply (grows_insert _ _ _ _ Hc); [auto | reflexivity].
Qed.

Ltac grow :=
  repeat first
    [ apply append_only_ret
    | apply append_only_raise
    | apply append_only_setitem
    | apply append_only_append_anon
    | apply append_only_make_instance
    | apply append_only_update_object
    | apply append_only_reads; solve [auto with reads]
    | apply append_only_bind; [| intros ?]
    | match goal with
      | |- append_only (if ?b then _ else _) => destruct b
      | |- append_only (match ?x with _ => _ end) => destruct x
      end ].

Lemma append_only_visitName_or_attr ctx : append_only (visitName_or_attr ctx).
Proof. apply append_only_reads, reads_only_visitName_or_attr. Qed.

Lemma append_only_visitName ctx : append_only (visitName ctx).
Proof. apply append_only_reads, reads_only_visitName. Qed.

Lemma append_only_visitTotally_an_integer ctx :
  append_only (visitTotally_an_integer ctx).
Proof. unfold visitTotally_an_integer. grow. Qed.

Lemma append_only_visitPindef_stmt ctx : append_only (visitPindef_stmt ctx).
Proof.
  unfold visitPindef_stmt. apply append_only_bind.
  - destruct ctx; [| apply append_only_visitName].
    apply append_only_bind; [apply append_only_visitTotally_an_integer |].
    intros z. grow.
  - intros name. grow.
Qed.

Lemma append_only_visitSignaldef_stmt ctx : append_only (visitSignaldef_stmt ctx).
Proof.
  unfold visitSignaldef_stmt.
  apply append_only_bind; [apply append_only_visitName |]. intros name. grow.
Qed.

Lemma append_only_visitImport_stmt ctx : append_only (visitImport_stmt ctx).
Proof.
  unfold visitImport_stmt, visitString.
  apply append_only_bind; [grow |]. intros from_file.
  apply append_only_bind; [apply append_only_visitName_or_attr |].
  intros found. grow.
Qed.

Lemma append_only_visitNew_stmt ctx : append_only (visitNew_stmt ctx).
Proof.
  unfold visitNew_stmt.
  apply append_only_bind; [apply append_only_visitName_or_attr |].
  intros found. grow.
Qed.

Lemma append_only_visitAssignable ctx : append_only (visitAssignable ctx).
Proof.
  destruct ctx; simpl.
  - apply append_only_bind; [apply append_only_visitName_or_attr |].
    intros found. grow.
  - apply append_only_visitNew_stmt.
  - grow.
  - unfold visitString. grow.
  - unfold visitBoolean_. grow.
Qed.

Lemma append_only_visitAssign_stmt ctx : append_only (visitAssign_stmt ctx).
Proof.
  unfold visitAssign_stmt.
  apply append_only_bind; [apply append_only_visitName_or_attr |].
  intros found.
  apply append_only_bind; [apply append_only_visitAssignable |].
  intros v. grow.
Qed.

Lemma append_only_visitConnectable ctx : append_only (visitConnectable ctx).
Proof.
  unfold visitConnectable. apply append_only_bind.
  - destruct ctx; simpl.
    + apply append_only_bind; [apply append_only_visitName_or_attr |].
      intros found. grow.
    + unfold visitNumerical_pin_ref. apply append_only_bind.
      * apply append_only_bind; [apply append_only_visitName_or_attr |].
        intros _. apply append_only_visitTotally_an_integer.
      * intros z. grow.
    + apply append_only_visitPindef_stmt.
    + apply append_only_visitSignaldef_stmt.
  - intros v.
    apply append_only_bind;
      [apply append_only_reads, reads_only_isinstance_InterfaceObject |].
    intros b. grow.
Qed.

Lemma reads_only_isinstance_LinkObject v : reads_only (isinstance_LinkObject v).
Proof. intros st. reflexivity. Qed.

Lemma append_only_visitConnect_stmt ctx : append_only (visitConnect_stmt ctx).
Proof.
  unfold visitConnect_stmt, setattr_object.
  apply append_only_bind; [apply append_only_visitConnectable |]. intros start_.
  apply append_only_bind; [apply append_only_visitConnectable |]. intros end__.
  apply append_only_bind; [apply append_only_make_instance |]. intros link.
  apply append_only_bind;
    [apply append_only_reads, reads_only_isinstance_LinkObject |].
  intros b. grow.
Qed.

Lemma append_only_visitRetype_stmt ctx : append_only (visitRetype_stmt ctx).
Proof.
  unfold visitRetype_stmt, set_type_.
  apply append_only_bind; [apply append_only_visitName_or_attr |]. intros found0.
  apply append_only_bind; [apply append_only_visitName_or_attr |]. intros found1.
  grow.
Qed.

(** X1. Whatever the statement and however it ends, afterwards the
    current scope is the one before, no entity has left the heap, every
    name that was bound in an entity is bound to the same value, and the
    anonymous members an entity had are still there in order: statements
    add bindings, objects and links and never rebind or remove one. *)
Theorem statements_only_add ctx st :
  grows st (snd (visitStmt ctx st)).
Proof.
  destruct ctx as [c | c | c | c | c | c | c | bt n F noa block].
  - apply append_only_visitImport_stmt.
  - apply append_only_visitAssign_stmt.
  - apply append_only_visitConnect_stmt.
  - apply append_only_visitRetype_stmt.
  - apply append_only_visitPindef_stmt.
  - apply append_only_visitSignaldef_stmt.
  - apply grows_refl.
  - destruct (visitStmt_Blockdef_never_returns bt n F noa block st) as (e & He).
    rewrite He. apply grows_refl.
Qed.

(* ===================================================================== *)
(** * More on paths *)
(* ===================================================================== *)

(** X2. Resolving a name or a dotted path changes nothing: whatever the
    context and whether it returns or raises, the heap and the current
    scope afterwards are the ones before. *)
Theorem path_resolution_changes_nothing ctx st :
  snd (visitName_or_attr ctx st) = st.
Proof. apply reads_only_visitName_or_attr. Qed.

(** X3. The last segment of a dotted path is never looked up: with the
    same segments before it, another last segment gives the same scope
    with the other name, or the same exception. *)
Theorem final_segment_is_not_resolved before x y st :
  fst (visitName_or_attr (Attr (before ++ [y])) st) =
    match fst (visitName_or_attr (Attr (before ++ [x])) st) with
    | Return (s, _) => Return (s, name_key y)
    | Raise e => Raise e
    end.
Proof.
  rewrite !visitName_or_attr_Attr. cbn [fst].
  rewrite !map_app. cbn [map]. rewrite !removelast_last, !last_snoc.
  destruct (foldM _ _ _ _) as [[s | e] st1]; reflexivity.
Qed.

(* ===================================================================== *)
(** * More on imports *)
(* ===================================================================== *)

Lemma visitName_or_attr_Name name st :
  visitName_or_attr (Name name) st = (Return (scope st, name_key name), st).
Proof.
  simpl. unfold bind at 1, self_scope at 1.
  rewrite (bind_Return _ _ _ _ _ (visitName_run name st)). reflexivity.
Qed.

(** X4. An import of a single name never returns and changes nothing: the
    name is looked up in the current scope, where it is either visible,
    which is a conflict, or not, which fails the lookup. *)
Theorem import_of_a_single_name_never_returns name file st :
  exists e,
    visitImport_stmt (mkImport_stmt (Name name) file) st = (Raise e, st) /\
    (e = AtoCompileError Expected_a_from_file_path \/
     e = AtoCompileError Expected_a_name_to_import \/
     e = NotImplementedError Import_star \/
     e = AtoNameConflictError (Cannot_redefine (name_key name)) \/
     e = NameNotFound (name_key name)).
Proof.
  unfold visitImport_stmt, visitString. cbn [import_what import_from].
  unfold bind at 1, ret at 1.
  rewrite (bind_Return _ _ _ _ _ (visitName_or_attr_Name name st)). cbn [fst snd].
  destruct (String.eqb _ _); [eexists; split; [reflexivity | auto] |].
  destruct (negb _); [eexists; split; [reflexivity | auto] |].
  destruct (bool_decide (name_key name = KStr "*"));
    [eexists; split; [reflexivity | auto 6] |].
  unfold bind at 1, self_scope at 1. unfold bind at 1. rewrite contains_run.
  destruct (scope_lookup (heap st) (scope st) (name_key name)) as [v |] eqn:E.
  - rewrite bool_decide_eq_true_2 by eauto.
    eexists. split; [reflexivity | auto 6].
  - rewrite bool_decide_eq_false_2 by (intros [? ?]; discriminate).
    rewrite (bind_Raise _ _ _ _ _ (getitem_None _ _ _ E)).
    eexists. split; [reflexivity | auto 6].
Qed.

(* ===================================================================== *)
(** * More on declarations *)
(* ===================================================================== *)

(** The common end of a declaration, when the name is free and the
    current scope's entity is on the heap. *)
Lemma declare_free c name st entity :
  heap st !! root (scope st) = Some entity ->
  scope_lookup (heap st) (scope st) name = None ->
  (x <- make_instance c ;;
   scope <- self_scope ;;
   setitem scope name x ;;
   ret x) st =
    (Return (VObject (length (heap st))),
     mkState (<[root (scope st) := bind_member name (VObject (length (heap st))) entity]>
                (heap st ++ [mkCell (Some (types.mkObject c None None)) ∅ []]))
             (scope st)).
Proof.
  intros Hentity Hfree.
  unfold make_instance, alloc, self_scope, bind, ret. simpl.
  assert (Hlt : (root (scope st) < length (heap st))%nat)
    by (eapply lookup_lt_Some, Hentity).
  unfold setitem. simpl. rewrite lookup_app_l by exact Hlt. rewrite Hentity.
  apply scope_lookup_None_root in Hfree.
  rewrite (members_at_Some _ _ _ Hentity) in Hfree. rewrite Hfree. reflexivity.
Qed.

Lemma declare_Return_object c name st v st' :
  (x <- make_instance c ;;
   scope <- self_scope ;;
   setitem scope name x ;;
   ret x) st = (Return v, st') ->
  object_at (heap st') (length (heap st)) = Some (types.mkObject c None None) /\
  length (heap st') = S (length (heap st)).
Proof.
  unfold make_instance, alloc, self_scope, bind, ret. simpl.
  destruct (setitem _ _ _ _) as [[u | e] st2] eqn:E; [| discriminate].
  intros [= <- <-].
  apply setitem_inv in E as [(entity & Hentity & _ & _ & ->) | (e & He & _)];
    [| discriminate].
  simpl in *. split.
  - rewrite (object_at_insert_same_instance _ _ entity); auto.
    apply object_at_fresh.
  - rewrite length_insert, length_app. simpl. lia.
Qed.

(** X5. A pin or signal declaration that raises, in a state whose current
    scope is rooted at an entity of the heap, changes nothing: the name is
    checked before the instance is made. *)
Theorem failed_declaration_changes_nothing st :
  is_Some (heap st !! root (scope st)) ->
  (forall ctx e st', visitPindef_stmt ctx st = (Raise e, st') -> st' = st) /\
  (forall ctx e st', visitSignaldef_stmt ctx st = (Raise e, st') -> st' = st).
Proof.
  intros [entity Hentity]. split; intros ctx e st'.
  - rewrite visitPindef_stmt_run.
    destruct (pin_key ctx) as [name |]; [| congruence].
    destruct (negb (truthy name)); [congruence |].
    destruct (bool_decide _) eqn:B; [congruence |].
    apply bool_decide_eq_false in B.
    rewrite (declare_free _ _ _ _ Hentity); [discriminate |].
    destruct (scope_lookup _ _ _) eqn:E; [exfalso; eauto | reflexivity].
  - rewrite visitSignaldef_stmt_run.
    destruct (negb (truthy (name_key ctx))); [congruence |].
    destruct (bool_decide _) eqn:B; [congruence |].
    apply bool_decide_eq_false in B.
    rewrite (declare_free _ _ _ _ Hentity); [discriminate |].
    destruct (scope_lookup _ _ _) eqn:E; [exfalso; eauto | reflexivity].
Qed.

Lemma failed_declaration_changes_nothing_witness :
  is_Some (heap library_state !! root (scope library_state)) /\
  (exists e st',
     visitPindef_stmt (PinName "Resistor") library_state = (Raise e, st') /\
     st' = library_state).
Proof.
  assert (H : is_Some (heap library_state !! root (scope library_state)))
    by (vm_compute; eexists; reflexivity).
  split; [exact H |].
  destruct (visitPindef_stmt (PinName "Resistor") library_state)
    as [[v | e] st'] eqn:E; [vm_compute in E; discriminate |].
  exists e, st'. split; [reflexivity |].
  exact (proj1 (failed_declaration_changes_nothing library_state H) _ _ _ E).
Defined.

(** X6. A pin or a signal that was declared is accepted as the operand of
    a connect statement under its name: the reference finds the object
    the declaration returned, and the object is an interface. *)
Theorem declared_names_are_connectable text st v st' :
  visitSignaldef_stmt text st = (Return v, st') \/
  visitPindef_stmt (PinName text) st = (Return v, st') \/
  visitPindef_stmt (PinInteger text) st = (Return v, st') ->
  visitConnectable (ConnectName_or_attr (Name text)) st' = (Return v, st').
Proof.
  intros H.
  assert (Hdecl : exists c,
            is_subclass_of c types.INTERFACE = true /\
            (x <- make_instance c ;;
             scope <- self_scope ;;
             setitem scope (name_key text) x ;;
             ret x) st = (Return v, st')).
  { destruct H as [H | [H | H]].
    - rewrite visitSignaldef_stmt_run in H.
      destruct (negb _); [discriminate |].
      destruct (bool_decide _); [discriminate |].
      exists types.INTERFACE. split; [reflexivity | exact H].
    - rewrite visitPindef_stmt_run in H. simpl in H.
      destruct (negb _); [discriminate |].
      destruct (bool_decide _); [discriminate |].
      exists types.PIN. split; [reflexivity | exact H].
    - rewrite visitPindef_stmt_run in H. simpl in H.
      unfold name_key. destruct (py_int text) as [z |]; [| discriminate].
      simpl in H.
      destruct (negb _); [discriminate |].
      destruct (bool_decide _); [discriminate |].
      exists types.PIN. split; [reflexivity | exact H]. }
  destruct Hdecl as (c & Hsub & Hrun).
  destruct (declare_Return _ _ _ _ _ Hrun) as (-> & Hscope & Hbound & _).
  destruct (declare_Return_object _ _ _ _ _ Hrun) as (Hobject & _).
  assert (Hres : resolve_connectable (ConnectName_or_attr (Name text)) st'
                 = (Return (VObject (length (heap st))), st')).
  { cbn [resolve_connectable].
    rewrite (bind_Return _ _ _ _ _ (visitName_or_attr_Name text st')). cbn [fst snd].
    apply getitem_Some, scope_lookup_root. rewrite Hscope. exact Hbound. }
  rewrite (visitConnectable_resolved _ _ _ _ Hres). simpl.
  rewrite Hobject. simpl. rewrite Hsub. reflexivity.
Qed.

Lemma declared_names_are_connectable_witness :
  visitPindef_stmt (PinInteger "1") library_state
    = (Return (VObject 10), snd (visitPindef_stmt (PinInteger "1") library_state)) /\
  visitConnectable (ConnectName_or_attr (Name "1"))
    (snd (visitPindef_stmt (PinInteger "1") library_state))
    = (Return (VObject 10), snd (visitPindef_stmt (PinInteger "1") library_state)).
Proof.
  assert (H : visitPindef_stmt (PinInteger "1") library_state
              = (Return (VObject 10),
                 snd (visitPindef_stmt (PinInteger "1") library_state)))
    by (vm_compute; reflexivity).
  split; [exact H |].
  apply (declared_names_are_connectable "1" library_state).
  right. right. exact H.
Defined.

(** X7. Pins and signals share the names of a scope: once a name is
    declared as either, declaring it again as a signal or as a pin raises
    [AtoNameConflictError] and changes nothing. *)
Theorem pins_and_signals_share_names text st v st1 :
  visitSignaldef_stmt text st = (Return v, st1) \/
  visitPindef_stmt (PinName text) st = (Return v, st1) ->
  visitSignaldef_stmt text st1 =
    (Raise (AtoNameConflictError (Cannot_redefine (name_key text))), st1) /\
  visitPindef_stmt (PinName text) st1 =
    (Raise (AtoNameConflictError (Cannot_redefine (name_key text))), st1).
Proof.
  intros H.
  assert (Hfacts : negb (truthy (name_key text)) = false /\
                   is_Some (scope_lookup (heap st1) (scope st1) (name_key text))).
  { destruct H as [H | H].
    - rewrite visitSignaldef_stmt_run in H.
      destruct (negb _); [discriminate |]. split; [reflexivity |].
      destruct (bool_decide _); [discriminate |].
      apply declare_Return in H as (_ & Hscope & Hbound & _).
      exists v. apply scope_lookup_root. rewrite Hscope. exact Hbound.
    - rewrite visitPindef_stmt_run in H. simpl in H.
      destruct (negb _); [discriminate |]. split; [reflexivity |].
      destruct (bool_decide _); [discriminate |].
      apply declare_Return in H as (_ & Hscope & Hbound & _).
      exists v. apply scope_lookup_root. rewrite Hscope. exact Hbound. }
  destruct Hfacts as (Htruthy & Hbound). split.
  - rewrite visitSignaldef_stmt_run, Htruthy.
    rewrite bool_decide_eq_true_2 by exact Hbound. reflexivity.
  - rewrite visitPindef_stmt_run. simpl. rewrite Htruthy.
    rewrite bool_decide_eq_true_2 by exact Hbound. reflexivity.
Qed.

Lemma pins_and_signals_share_names_witness :
  visitSignaldef_stmt "a" library_state
    = (Return (VObject 10), snd (visitSignaldef_stmt "a" library_state)) /\
  visitPindef_stmt (PinName "a") (snd (visitSignaldef_stmt "a" library_state))
    = (Raise (AtoNameConflictError (Cannot_redefine (KStr "a"))),
       snd (visitSignaldef_stmt "a" library_state)).
Proof.
  assert (H : visitSignaldef_stmt "a" library_state
              = (Return (VObject 10), snd (visitSignaldef_stmt "a" library_state)))
    by (vm_compute; reflexivity).
  split; [exact H |].
  exact (proj2 (pins_and_signals_share_names "a" library_state _ _ (or_introl H))).
Defined.

(** X8. A name that parses as the integer zero is no name: [pin 0],
    [signal 0] and an import of [0] raise [AtoCompileError], because the
    walker tests the converted name for truth, and nothing changes. *)
Theorem zero_is_no_name text st :
  py_int text = Some 0%Z ->
  visitPindef_stmt (PinInteger text) st
    = (Raise (AtoCompileError Pins_must_have_a_name), st) /\
  visitPindef_stmt (PinName text) st
    = (Raise (AtoCompileError Pins_must_have_a_name), st) /\
  visitSignaldef_stmt text st
    = (Raise (AtoCompileError Signals_must_have_a_name), st) /\
  (forall file,
     strip_quotes file <> "" ->
     visitImport_stmt (mkImport_stmt (Name text) file) st
       = (Raise (AtoCompileError Expected_a_name_to_import), st)).
Proof.
  intros Hzero.
  assert (Hkey : name_key text = KInt 0) by (unfold name_key; rewrite Hzero; reflexivity).
  split; [| split; [| split]].
  - rewrite visitPindef_stmt_run. simpl. rewrite Hzero. reflexivity.
  - rewrite visitPindef_stmt_run. simpl. rewrite Hkey. reflexivity.
  - rewrite visitSignaldef_stmt_run, Hkey. reflexivity.
  - intros file Hfile. unfold visitImport_stmt, visitString.
    cbn [import_what import_from]. unfold bind at 1, ret at 1.
    rewrite (bind_Return _ _ _ _ _ (visitName_or_attr_Name text st)). cbn [fst snd].
    apply String.eqb_neq in Hfile. rewrite Hfile, Hkey. reflexivity.
Qed.

Lemma zero_is_no_name_witness :
  py_int "-0" = Some 0%Z /\
  visitSignaldef_stmt "-0" library_state
    = (Raise (AtoCompileError Signals_must_have_a_name), library_state).
Proof.
  assert (H : py_int "-0" = Some 0%Z) by reflexivity.
  split; [exact H |].
  exact (proj1 (proj2 (proj2 (zero_is_no_name "-0" library_state H)))).
Defined.

(* ===================================================================== *)
(** * New-expressions and assignments *)
(* ===================================================================== *)

Lemma visitNew_stmt_inv ctx st r st' :
  visitNew_stmt ctx st = (r, st') ->
  (exists e, r = Raise e /\ st' = st) \/
  (exists from_scope name c,
     visitName_or_attr ctx st = (Return (from_scope, name), st) /\
     scope_lookup (heap st) from_scope name = Some (VClass c) /\
     r = Return (VObject (length (heap st))) /\
     st' = mkState (heap st ++ [mkCell (Some (types.mkObject c None None)) ∅ []])
                   (scope st)).
Proof.
  unfold visitNew_stmt. intros H.
  pose proof (reads_only_visitName_or_attr ctx st) as R.
  unfold bind at 1 in H.
  destruct (visitName_or_attr ctx st) as [[[S n] | e] s0];
    simpl in R; subst s0; [| injection H as <- <-; eauto].
  cbn [fst snd] in H. unfold bind at 1, getitem at 1 in H.
  destruct (scope_lookup (heap st) S n) as [v |] eqn:E;
    [| injection H as <- <-; eauto].
  destruct v; try (injection H as <- <-; eauto; fail).
  right. exists S, n, c. injection H as <- <-. auto.
Qed.

Lemma visitNew_stmt_class ctx st from_scope name c :
  visitName_or_attr ctx st = (Return (from_scope, name), st) ->
  scope_lookup (heap st) from_scope name = Some (VClass c) ->
  visitNew_stmt ctx st =
    (Return (VObject (length (heap st))),
     mkState (heap st ++ [mkCell (Some (types.mkObject c None None)) ∅ []]) (scope st)).
Proof.
  intros Hwhat Hclass. unfold visitNew_stmt.
  rewrite (bind_Return _ _ _ _ _ Hwhat). cbn [fst snd].
  rewrite (bind_Return _ _ _ _ _ (getitem_Some _ _ _ _ Hclass)). reflexivity.
Qed.

(** X9. A new-expression either raises and changes nothing, or its name
    resolves to a class and exactly one entity is added at the end of the
    heap: an instance of that class with no members, which is the value
    returned. No name is bound and no other entity changes. *)
Theorem new_stmt_outcome ctx st :
  match visitNew_stmt ctx st with
  | (Raise e, st') => st' = st
  | (Return v, st') =>
      exists from_scope name c,
        visitName_or_attr ctx st = (Return (from_scope, name), st) /\
        scope_lookup (heap st) from_scope name = Some (VClass c) /\
        v = VObject (length (heap st)) /\
        st' = mkState (heap st ++ [mkCell (Some (types.mkObject c None None)) ∅ []])
                      (scope st)
  end.
Proof.
  destruct (visitNew_stmt ctx st) as [r st'] eqn:E.
  apply visitNew_stmt_inv in E
    as [(e & -> & ->) | (S & n & c & Hwhat & Hclass & -> & ->)].
  - reflexivity.
  - exists S, n, c. auto.
Qed.

(** The state after binding [attr] under [name] in the entity that the
    scope [target_scope] is rooted at. *)
Lemma visitAssign_stmt_bind ctx st target_scope name v st1 attr entity :
  visitName_or_attr (assign_target ctx) st = (Return (target_scope, name), st) ->
  visitAssignable (assignable ctx) st = (Return v, st1) ->
  (match v with
   | VObject a => t <- get_type_ a ;; ret (VAttribute (TClass t) v)
   | VClass _ => ret (VAttribute TPyClass v)
   | VAttribute t w => ret (VAttribute t w)
   | VInt _ => ret (VAttribute TPyInt v)
   | VBool _ => ret (VAttribute TPyBool v)
   | VFloat _ => ret (VAttribute TPyFloat v)
   | VStr _ => ret (VAttribute TPyStr v)
   | VScope _ | VNone => raise (UnboundLocalError "attr")
   end) st1 = (Return attr, st1) ->
  heap st1 !! root target_scope = Some entity ->
  visitAssign_stmt ctx st =
    match members entity !! name with
    | None =>
        (Return VNone,
         mkState (<[root target_scope := bind_member name attr entity]> (heap st1))
                 (scope st1))
    | Some _ => (Raise (AtoNameConflictError (Cannot_redefine name)), st1)
    end.
Proof.
  intros Htarget Hvalue Hattr Hentity. unfold visitAssign_stmt.
  rewrite (bind_Return _ _ _ _ _ Htarget). cbn [fst snd].
  rewrite (bind_Return _ _ _ _ _ Hvalue).
  rewrite (bind_Return _ _ _ _ _ Hattr).
  unfold bind, setitem. rewrite Hentity.
  destruct (members entity !! name); reflexivity.
Qed.

Lemma visitAssignable_NUMBER text st :
  visitAssignable (AssignNUMBER text) st =
    (match py_float text with
     | Some value =>
         match float_to_int value with
         | Some z => Return (VInt z)
         | None => Return (VFloat value)
         end
     | None => Raise (ValueError text)
     end, st).
Proof.
  simpl. destruct (py_float text) as [value |]; [| reflexivity].
  destruct (float_to_int value); reflexivity.
Qed.

(** X11. An assignment of a literal to a target that resolves to a free
    name of an entity binds, in that entity (the current scope's for a
    plain name, the one the path leads to for a dotted target), an
    attribute whose [type_] is the Python type of the literal: [str] for
    a string, with its quotes stripped, and [bool] for a boolean. A
    number goes through [float]: when the double its text is read as is
    a whole number the attribute is an [int] of that value, otherwise a
    [float] of the double; and when [float] refuses the text, as for
    [0x10], its [ValueError] leaves the walker and nothing is bound. So a
    number written with digits only is bound as the [int] it writes when
    that is below [2^53]; a larger one is bound as the double it is read
    as, which need not be the number written: [9007199254740993] is
    bound as 9007199254740992. Nothing else changes. *)
Theorem literal_assignment_binds_typed_attribute
    target st target_scope name entity :
  visitName_or_attr target st = (Return (target_scope, name), st) ->
  heap st !! root target_scope = Some entity ->
  members entity !! name = None ->
  let bound attr :=
    (Return VNone,
     mkState (<[root target_scope := bind_member name attr entity]> (heap st))
             (scope st)) in
  (forall text,
     visitAssign_stmt (mkAssign_stmt target (AssignString text)) st
       = bound (VAttribute TPyStr (VStr (strip_quotes text)))) /\
  (forall text,
     visitAssign_stmt (mkAssign_stmt target (AssignBoolean_ text)) st
       = bound (VAttribute TPyBool (VBool (String.eqb (lower text) "true")))) /\
  (forall text value z,
     py_float text = Some value -> float_to_int value = Some z ->
     visitAssign_stmt (mkAssign_stmt target (AssignNUMBER text)) st
       = bound (VAttribute TPyInt (VInt z))) /\
  (forall text value,
     py_float text = Some value -> float_to_int value = None ->
     visitAssign_stmt (mkAssign_stmt target (AssignNUMBER text)) st
       = bound (VAttribute TPyFloat (VFloat value))) /\
  (forall text,
     py_float text = None ->
     visitAssign_stmt (mkAssign_stmt target (AssignNUMBER text)) st
       = (Raise (ValueError text), st)) /\
  (forall text,
     all_digits text -> text <> "" ->
     (decimal_value (digits text) < 2 ^ 53)%Z ->
     visitAssign_stmt (mkAssign_stmt target (AssignNUMBER text)) st
       = bound (VAttribute TPyInt (VInt (decimal_value (digits text))))).
Proof.
  intros Htarget Hentity Hfree bound.
  assert (Hint : forall text value z,
            py_float text = Some value -> float_to_int value = Some z ->
            visitAssign_stmt (mkAssign_stmt target (AssignNUMBER text)) st
              = bound (VAttribute TPyInt (VInt z))).
  { intros text value z Hvalue Hz.
    rewrite (visitAssign_stmt_bind (mkAssign_stmt target (AssignNUMBER text)) st
               target_scope name (VInt z) st (VAttribute TPyInt (VInt z)) entity);
      [rewrite Hfree; reflexivity | exact Htarget | | reflexivity | exact Hentity].
    cbn [assignable]. rewrite visitAssignable_NUMBER, Hvalue, Hz. reflexivity. }
  split; [| split; [| split; [| split; [| split]]]].
  - intros text.
    erewrite visitAssign_stmt_bind;
      [rewrite Hfree; reflexivity | exact Htarget | reflexivity | reflexivity
      | exact Hentity].
  - intros text.
    erewrite visitAssign_stmt_bind;
      [rewrite Hfree; reflexivity | exact Htarget | reflexivity | reflexivity
      | exact Hentity].
  - exact Hint.
  - intros text value Hvalue Hz.
    rewrite (visitAssign_stmt_bind (mkAssign_stmt target (AssignNUMBER text)) st
               target_scope name (VFloat value) st
               (VAttribute TPyFloat (VFloat value)) entity);
      [rewrite Hfree; reflexivity | exact Htarget | | reflexivity | exact Hentity].
    cbn [assignable]. rewrite visitAssignable_NUMBER, Hvalue, Hz. reflexivity.
  - intros text Hvalue. unfold visitAssign_stmt. cbn [assign_target assignable].
    rewrite (bind_Return _ _ _ _ _ Htarget). cbn [fst snd].
    apply bind_Raise. rewrite visitAssignable_NUMBER, Hvalue. reflexivity.
  - intros text Hall Hne Hsmall.
    apply (Hint text _ _ (py_float_all_digits _ Hall Hne)).
    rewrite float_to_int_round_to_double; [reflexivity |].
    split; [apply decimal_value_nonneg | exact Hsmall].
Qed.

Lemma literal_assignment_binds_typed_attribute_witness :
  let bound attr :=
    (Return VNone,
     mkState (<[6 := bind_member (KStr "value") attr library_cell]>
                (heap library_state))
             (scope library_state)) in
  let assign value :=
    visitAssign_stmt (mkAssign_stmt (Name "value") value) library_state in
  visitName_or_attr (Name "value") library_state
    = (Return (mkScope 6 [], KStr "value"), library_state) /\
  heap library_state !! 6 = Some library_cell /\
  members library_cell !! KStr "value" = None /\
  assign (AssignString "'10k'") = bound (VAttribute TPyStr (VStr "10k")) /\
  assign (AssignNUMBER "10.0") = bound (VAttribute TPyInt (VInt 10)) /\
  assign (AssignNUMBER "1e3") = bound (VAttribute TPyInt (VInt 1000)) /\
  assign (AssignNUMBER "2.5")
    = bound (VAttribute TPyFloat (VFloat (Finite false 5629499534213120 (-51)))) /\
  assign (AssignNUMBER "0x10") = (Raise (ValueError "0x10"), library_state) /\
  assign (AssignNUMBER "4700") = bound (VAttribute TPyInt (VInt 4700)) /\
  assign (AssignNUMBER "9007199254740993")
    = bound (VAttribute TPyInt (VInt 9007199254740992)).
Proof.
  intros bound assign.
  assert (H0 : visitName_or_attr (Name "value") library_state
               = (Return (mkScope 6 [], KStr "value"), library_state))
    by (vm_compute; reflexivity).
  assert (H1 : heap library_state !! 6 = Some library_cell) by reflexivity.
  assert (H2 : members library_cell !! KStr "value" = None)
    by (vm_compute; reflexivity).
  destruct (literal_assignment_binds_typed_attribute
              (Name "value") library_state (mkScope 6 []) (KStr "value")
              library_cell H0 H1 H2)
    as (Hstring & _ & Hint & Hfloat & Hbad & Hdigits).
  split; [exact H0 |]. split; [exact H1 |]. split; [exact H2 |].
  split; [exact (Hstring "'10k'") |].
  split; [apply (Hint "10.0" (Finite false 5629499534213120 (-49)));
          vm_compute; reflexivity |].
  split; [apply (Hint "1e3" (Finite false 8796093022208000 (-43)));
          vm_compute; reflexivity |].
  split; [apply (Hfloat "2.5"); vm_compute; reflexivity |].
  split; [apply (Hbad "0x10"); vm_compute; reflexivity |].
  split; [apply (Hdigits "4700"); [vm_compute; reflexivity | discriminate
                                  | vm_compute; reflexivity] |].
  apply (Hint "9007199254740993" (Finite false 4503599627370496 1));
    vm_compute; reflexivity.
Defined.

Lemma visitAssignable_members ctx st r st1 :
  visitAssignable ctx st = (r, st1) ->
  forall a, members_at (heap st1) a = members_at (heap st) a.
Proof.
  intros H a. destruct ctx as [noa | n | number | s | b]; simpl in H.
  - assert (R : reads_only (found <- visitName_or_attr noa ;;
                            getitem (fst found) (snd found))).
    { apply reads_only_bind; [apply reads_only_visitName_or_attr |].
      intros found. apply reads_only_getitem. }
    specialize (R st). rewrite H in R. simpl in R. subst st1. reflexivity.
  - apply visitNew_stmt_inv in H
      as [(e & _ & ->) | (S & n' & c & _ & _ & _ & ->)]; [reflexivity |].
    simpl. apply members_at_app_empty.
  - destruct (py_float number) as [value |];
      [destruct (float_to_int value) |]; injection H as _ <-; reflexivity.
  - injection H as _ <-. reflexivity.
  - injection H as _ <-. reflexivity.
Qed.

(** C10. A name token whose text parses as the integer [z] is turned into
    [z] wherever it stands; for a text of digits only, [z] is the number
    the digits write in base ten. As a name on its own and as any segment of a
    dotted path it is the key [z], and no name token is ever turned into
    the string of that text. As the name of a signal or of a pin, when
    [z] is not zero and free, the object declared is bound under the key
    [z], and the entry of the string key is as it was. As the target of
    an assignment whose name is free, the attribute is bound under the
    key [z], and the entry of the string key is as it was. As the name of
    a block, the test for a redefinition is made under the key [z]: the
    definition raises the name conflict exactly when [z] is visible,
    whatever the string key is bound to. *)
Theorem integer_names_are_integer_keys text z :
  py_int text = Some z ->
  (forall st, visitName text st = (Return (KInt z), st)) /\
  (all_digits text -> z = decimal_value (digits text)) /\
  (forall text', name_key text' <> KStr text) /\
  (forall st, visitName_or_attr (Name text) st = (Return (scope st, KInt z), st)) /\
  (forall before after st,
     visitAttr (before ++ text :: after) st
       = (Return (map name_key before ++ KInt z :: map name_key after), st)) /\
  (forall st entity,
     z <> 0%Z ->
     heap st !! root (scope st) = Some entity ->
     scope_lookup (heap st) (scope st) (KInt z) = None ->
     let declared c :=
       (Return (VObject (length (heap st))),
        mkState (<[root (scope st) :=
                     bind_member (KInt z) (VObject (length (heap st))) entity]>
                   (heap st ++ [mkCell (Some (types.mkObject c None None)) ∅ []]))
                (scope st)) in
     visitSignaldef_stmt text st = declared types.INTERFACE /\
     visitPindef_stmt (PinName text) st = declared types.PIN) /\
  (forall st v st',
     visitSignaldef_stmt text st = (Return v, st') \/
     visitPindef_stmt (PinName text) st = (Return v, st') ->
     scope_lookup (heap st') (scope st') (KInt z) = Some v /\
     members_at (heap st') (root (scope st')) !! KStr text
       = members_at (heap st) (root (scope st)) !! KStr text) /\
  (forall literal st entity,
     heap st !! root (scope st) = Some entity ->
     members entity !! KInt z = None ->
     visitAssign_stmt (mkAssign_stmt (Name text) (AssignString literal)) st
       = (Return VNone,
          mkState (<[root (scope st) :=
                       bind_member (KInt z)
                         (VAttribute TPyStr (VStr (strip_quotes literal))) entity]>
                     (heap st))
                  (scope st))) /\
  (forall value st r st',
     visitAssign_stmt (mkAssign_stmt (Name text) value) st = (Return r, st') ->
     (exists t held,
        members_at (heap st') (root (scope st)) !! KInt z = Some (VAttribute t held)) /\
     members_at (heap st') (root (scope st)) !! KStr text
       = members_at (heap st) (root (scope st)) !! KStr text) /\
  (forall blocktype FROM name_or_attr block st,
     visitStmt (Blockdef blocktype text FROM name_or_attr block) st
       = (Raise (AtoNameConflictError (Cannot_redefine (KInt z))), st)
     <-> is_Some (scope_lookup (heap st) (scope st) (KInt z))).
Proof.
  intros Hint.
  assert (Hkey : name_key text = KInt z) by (unfold name_key; rewrite Hint; reflexivity).
  split; [| split; [| split; [| split; [| split; [| split; [| split; [| split; [| split]]]]]]]].
  - intros st. rewrite visitName_run, Hkey. reflexivity.
  - intros Hall.
    assert (Hne : text <> "") by (intros ->; vm_compute in Hint; discriminate).
    rewrite (py_int_all_digits _ Hall Hne) in Hint.
    destruct (_ <? _)%N; [discriminate |]. injection Hint as <-. reflexivity.
  - intros text'. unfold name_key.
    destruct (py_int text') eqn:E; [discriminate |].
    intros [= ->]. congruence.
  - intros st. rewrite visitName_or_attr_Name, Hkey. reflexivity.
  - intros before after st. rewrite visitAttr_run, map_app. simpl.
    rewrite Hkey. reflexivity.
  - intros st entity Hz Hentity Hfree declared.
    assert (Htruthy : negb (truthy (KInt z)) = false).
    { simpl. rewrite (proj2 (Z.eqb_neq z 0) Hz). reflexivity. }
    split.
    + rewrite visitSignaldef_stmt_run, Hkey, Htruthy, Hfree.
      rewrite bool_decide_eq_false_2 by (intros [? ?]; discriminate).
      apply declare_free; assumption.
    + rewrite visitPindef_stmt_run. cbn [pin_key]. rewrite Hkey, Htruthy, Hfree.
      rewrite bool_decide_eq_false_2 by (intros [? ?]; discriminate).
      apply declare_free; assumption.
  - intros st v st' [H | H].
    + rewrite visitSignaldef_stmt_run, Hkey in H.
      destruct (negb _); [discriminate |].
      destruct (bool_decide _); [discriminate |].
      apply declare_Return in H as (_ & Hscope & Hbound & Hothers).
      rewrite Hscope. split; [apply scope_lookup_root, Hbound |].
      apply Hothers. discriminate.
    + rewrite visitPindef_stmt_run in H. simpl in H. rewrite Hkey in H.
      destruct (negb _); [discriminate |].
      destruct (bool_decide _); [discriminate |].
      apply declare_Return in H as (_ & Hscope & Hbound & Hothers).
      rewrite Hscope. split; [apply scope_lookup_root, Hbound |].
      apply Hothers. discriminate.
  - intros literal st entity Hentity Hfree.
    rewrite (visitAssign_stmt_bind
               (mkAssign_stmt (Name text) (AssignString literal)) st
               (scope st) (KInt z) (VStr (strip_quotes literal)) st
               (VAttribute TPyStr (VStr (strip_quotes literal))) entity);
      [rewrite Hfree; reflexivity | | reflexivity | reflexivity | exact Hentity].
    cbn [assign_target]. rewrite visitName_or_attr_Name, Hkey. reflexivity.
  - intros value st r st' H.
    apply visitAssign_stmt_Return in H
      as (S & n & v & t & held & st1 & Htarget & Hvalue & Hset).
    cbn [assign_target] in Htarget.
    rewrite visitName_or_attr_Name, Hkey in Htarget.
    injection Htarget as <- <-.
    apply setitem_inv in Hset as [(entity & Hentity & _ & _ & ->) | (e & He & _)];
      [| discriminate].
    simpl. rewrite (members_at_insert _ _ _ _ Hentity). simpl. split.
    + exists t, held. apply lookup_insert_eq.
    + rewrite lookup_insert_ne by discriminate.
      rewrite <- (members_at_Some _ _ _ Hentity).
      rewrite (visitAssignable_members _ _ _ _ Hvalue). reflexivity.
  - intros blocktype FROM name_or_attr block st. simpl.
    unfold visitBlockdef.
    rewrite (bind_Return _ _ _ _ _ (visitName_run text st)), Hkey.
    unfold bind at 1, self_scope at 1. unfold bind at 1. rewrite contains_run.
    destruct (bool_decide_reflect
                (is_Some (scope_lookup (heap st) (scope st) (KInt z)))) as [Hb | Hb].
    + split; [intros _; exact Hb | reflexivity].
    + split; [| contradiction].
      unfold visitBlocktype.
      destruct (String.eqb blocktype "module");
        [| destruct (String.eqb blocktype "component")]; intros [=].
Qed.

Lemma integer_names_are_integer_keys_witness :
  py_int "12" = Some 12%Z /\
  visitName "12" library_state = (Return (KInt 12), library_state) /\
  12%Z = decimal_value (digits "12") /\
  visitAttr ["r_top"; "12"] library_state
    = (Return [KStr "r_top"; KInt 12%Z], library_state) /\
  (exists st',
     visitSignaldef_stmt "12" library_state = (Return (VObject 10), st') /\
     scope_lookup (heap st') (scope st') (KInt 12) = Some (VObject 10) /\
     scope_lookup (heap st') (scope st') (KStr "12") = None) /\
  (exists st',
     visitPindef_stmt (PinName "12") library_state = (Return (VObject 10), st') /\
     scope_lookup (heap st') (scope st') (KInt 12) = Some (VObject 10) /\
     scope_lookup (heap st') (scope st') (KStr "12") = None) /\
  (exists st',
     visitAssign_stmt (mkAssign_stmt (Name "12") (AssignString "'10k'")) library_state
       = (Return VNone, st') /\
     scope_lookup (heap st') (scope st') (KInt 12)
       = Some (VAttribute TPyStr (VStr "10k")) /\
     scope_lookup (heap st') (scope st') (KStr "12") = None).
Proof.
  assert (H : py_int "12" = Some 12%Z) by (vm_compute; reflexivity).
  destruct (integer_names_are_integer_keys "12" 12 H)
    as (Hname & Hdigits & _ & _ & Hpath & Hdeclare & _ & Hassign & _).
  assert (Hentity : heap library_state !! root (scope library_state)
                    = Some library_cell) by reflexivity.
  destruct (Hdeclare library_state library_cell ltac:(discriminate) Hentity
              ltac:(vm_compute; reflexivity)) as (Hsignal & Hpin).
  split; [exact H |]. split; [apply Hname |].
  split; [apply Hdigits; vm_compute; reflexivity |].
  split; [exact (Hpath ["r_top"] [] library_state) |].
  split; [eexists; split; [exact Hsignal | split; vm_compute; reflexivity] |].
  split; [eexists; split; [exact Hpin | split; vm_compute; reflexivity] |].
  eexists. split.
  - apply (Hassign "'10k'" library_state library_cell Hentity).
    vm_compute. reflexivity.
  - split; vm_compute; reflexivity.
Defined.

(** X12. An assignment from a name, to a target that resolves to a free
    name of an entity, never copies what the name holds: an attribute is
    bound again as it is, an object is wrapped in an attribute that holds
    the same object and records its current class, a class is wrapped
    with the Python class [types.Class] as its [type_]; nothing is
    allocated. A name that holds a scope matches no case and the
    statement raises Python's [UnboundLocalError], binding nothing. *)
Theorem assignment_from_a_name_shares_the_value
    target source st target_scope name entity from_scope from_name :
  visitName_or_attr target st = (Return (target_scope, name), st) ->
  visitName_or_attr source st = (Return (from_scope, from_name), st) ->
  heap st !! root target_scope = Some entity ->
  members entity !! name = None ->
  let bound attr :=
    (Return VNone,
     mkState (<[root target_scope := bind_member name attr entity]> (heap st))
             (scope st)) in
  let run := visitAssign_stmt (mkAssign_stmt target (AssignName_or_attr source)) st in
  (forall t held,
     scope_lookup (heap st) from_scope from_name = Some (VAttribute t held) ->
     run = bound (VAttribute t held)) /\
  (forall a o,
     scope_lookup (heap st) from_scope from_name = Some (VObject a) ->
     object_at (heap st) a = Some o ->
     run = bound (VAttribute (TClass (type_ o)) (VObject a))) /\
  (forall c,
     scope_lookup (heap st) from_scope from_name = Some (VClass c) ->
     run = bound (VAttribute TPyClass (VClass c))) /\
  (forall s,
     scope_lookup (heap st) from_scope from_name = Some (VScope s) ->
     run = (Raise (UnboundLocalError "attr"), st)).
Proof.
  intros Htarget Hsource Hentity Hfree bound run.
  assert (Hvalue : forall v,
            scope_lookup (heap st) from_scope from_name = Some v ->
            visitAssignable (AssignName_or_attr source) st = (Return v, st)).
  { intros v Hv. cbn [visitAssignable].
    rewrite (bind_Return _ _ _ _ _ Hsource). cbn [fst snd].
    apply getitem_Some, Hv. }
  split; [| split; [| split]].
  - intros t held Hv. unfold run.
    erewrite visitAssign_stmt_bind;
      [rewrite Hfree; reflexivity | exact Htarget | apply Hvalue, Hv
      | reflexivity | exact Hentity].
  - intros a o Hv Ho. unfold run.
    erewrite visitAssign_stmt_bind;
      [rewrite Hfree; reflexivity | exact Htarget | apply Hvalue, Hv
      | | exact Hentity].
    unfold bind, get_type_. rewrite Ho. reflexivity.
  - intros c Hv. unfold run.
    erewrite visitAssign_stmt_bind;
      [rewrite Hfree; reflexivity | exact Htarget | apply Hvalue, Hv
      | reflexivity | exact Hentity].
  - intros s Hv. unfold run, visitAssign_stmt.
    cbn [assign_target assignable].
    rewrite (bind_Return _ _ _ _ _ Htarget). cbn [fst snd].
    rewrite (bind_Return _ _ _ _ _ (Hvalue _ Hv)). reflexivity.
Qed.

Lemma assignment_from_a_name_shares_the_value_witness :
  visitName_or_attr (Name "b") wired_state
    = (Return (mkScope 6 [], KStr "b"), wired_state) /\
  visitName_or_attr (Name "a") wired_state
    = (Return (mkScope 6 [], KStr "a"), wired_state) /\
  (exists entity,
     heap wired_state !! 6 = Some entity /\
     members entity !! KStr "b" = None /\
     visitAssign_stmt (mkAssign_stmt (Name "b") (AssignName_or_attr (Name "a")))
       wired_state
       = (Return VNone,
          mkState (<[6 := bind_member (KStr "b")
                            (VAttribute (TClass types.INTERFACE) (VObject 10)) entity]>
                     (heap wired_state))
                  (scope wired_state))).
Proof.
  assert (H0 : visitName_or_attr (Name "b") wired_state
               = (Return (mkScope 6 [], KStr "b"), wired_state))
    by (vm_compute; reflexivity).
  assert (H1 : visitName_or_attr (Name "a") wired_state
               = (Return (mkScope 6 [], KStr "a"), wired_state))
    by (vm_compute; reflexivity).
  split; [exact H0 |]. split; [exact H1 |].
  destruct (heap wired_state !! 6) as [entity |] eqn:Hentity;
    [| vm_compute in Hentity; discriminate].
  assert (Hfree : members entity !! KStr "b" = None)
    by (vm_compute in Hentity; injection Hentity as <-; vm_compute; reflexivity).
  exists entity. split; [reflexivity |]. split; [exact Hfree |].
  destruct (assignment_from_a_name_shares_the_value
              (Name "b") (Name "a") wired_state (mkScope 6 []) (KStr "b") entity
              (mkScope 6 []) (KStr "a") H0 H1 Hentity Hfree) as (_ & Hobject & _).
  apply (Hobject 10 (types.mkObject types.INTERFACE None None));
    vm_compute; reflexivity.
Defined.

(** X13. [target = new C], where the target resolves to a name of an
    entity and [C] to a class: the instance is made first and added at
    the end of the heap. When the name is free in the entity, it is bound
    there to an attribute that holds the new object and records the
    class; when it is taken, the statement raises
    [AtoNameConflictError] and the new object stays on the heap, bound
    nowhere. *)
Theorem assignment_of_a_new_instance
    target class_ref st target_scope name entity from_scope class_name c :
  visitName_or_attr target st = (Return (target_scope, name), st) ->
  visitName_or_attr class_ref st = (Return (from_scope, class_name), st) ->
  scope_lookup (heap st) from_scope class_name = Some (VClass c) ->
  heap st !! root target_scope = Some entity ->
  let made := heap st ++ [mkCell (Some (types.mkObject c None None)) ∅ []] in
  let attr := VAttribute (TClass c) (VObject (length (heap st))) in
  visitAssign_stmt (mkAssign_stmt target (AssignNew_stmt class_ref)) st =
    match members entity !! name with
    | None =>
        (Return VNone,
         mkState (<[root target_scope := bind_member name attr entity]> made) (scope st))
    | Some _ =>
        (Raise (AtoNameConflictError (Cannot_redefine name)), mkState made (scope st))
    end.
Proof.
  intros Htarget Hclass Hc Hentity made attr.
  assert (Hlt : (root target_scope < length (heap st))%nat)
    by (eapply lookup_lt_Some, Hentity).
  apply (visitAssign_stmt_bind
           (mkAssign_stmt target (AssignNew_stmt class_ref)) st target_scope name
           (VObject (length (heap st))) (mkState made (scope st)) attr entity).
  - exact Htarget.
  - apply (visitNew_stmt_class _ _ _ _ _ Hclass Hc).
  - unfold bind, get_type_. simpl. unfold made. rewrite object_at_fresh. reflexivity.
  - simpl. unfold made. rewrite lookup_app_l by exact Hlt. exact Hentity.
Qed.

Lemma assignment_of_a_new_instance_witness :
  visitName_or_attr (Name "Capacitor") library_state
    = (Return (mkScope 6 [], KStr "Capacitor"), library_state) /\
  visitName_or_attr (Name "Resistor") library_state
    = (Return (mkScope 6 [], KStr "Resistor"), library_state) /\
  scope_lookup (heap library_state) (mkScope 6 []) (KStr "Resistor")
    = Some (VClass Resistor) /\
  heap library_state !! 6 = Some library_cell /\
  visitAssign_stmt
    (mkAssign_stmt (Name "Capacitor") (AssignNew_stmt (Name "Resistor")))
    library_state
    = (Raise (AtoNameConflictError (Cannot_redefine (KStr "Capacitor"))),
       mkState (heap library_state
                  ++ [mkCell (Some (types.mkObject Resistor None None)) ∅ []])
               (scope library_state)).
Proof.
  assert (H0 : visitName_or_attr (Name "Capacitor") library_state
               = (Return (mkScope 6 [], KStr "Capacitor"), library_state))
    by (vm_compute; reflexivity).
  assert (H1 : visitName_or_attr (Name "Resistor") library_state
               = (Return (mkScope 6 [], KStr "Resistor"), library_state))
    by (vm_compute; reflexivity).
  assert (H2 : scope_lookup (heap library_state) (mkScope 6 []) (KStr "Resistor")
               = Some (VClass Resistor))
    by (vm_compute; reflexivity).
  assert (H3 : heap library_state !! 6 = Some library_cell) by reflexivity.
  split; [exact H0 |]. split; [exact H1 |]. split; [exact H2 |].
  split; [exact H3 |].
  rewrite (assignment_of_a_new_instance
             (Name "Capacitor") (Name "Resistor") library_state
             (mkScope 6 []) (KStr "Capacitor") library_cell
             (mkScope 6 []) (KStr "Resistor") Resistor H0 H1 H2 H3).
  vm_compute. reflexivity.
Defined.

(* ===================================================================== *)
(** * More on retyping *)
(* ===================================================================== *)

(** What a retype statement can have done. *)
Lemma visitRetype_stmt_inv ctx st r st' :
  visitRetype_stmt ctx st = (r, st') ->
  st' = st \/
  (exists a entity o c,
     heap st !! a = Some entity /\ instance entity = Some o /\
     is_subclass_of c (type_ o) = true /\
     st' = mkState (<[a := mkCell (Some (types.mkObject c (start o) (end_ o)))
                              (members entity) (anon entity)]> (heap st))
                   (scope st)).
Proof.
  destruct r as [v | e]; [| intros H; left; eapply retype_failure_changes_nothing, H].
  unfold visitRetype_stmt. intros H.
  pose proof (reads_only_visitName_or_attr (name_or_attr0 ctx) st) as R0.
  unfold bind at 1 in H.
  destruct (visitName_or_attr (name_or_attr0 ctx) st) as [[found0 | e0] s0];
    simpl in R0; subst s0; [| discriminate].
  pose proof (reads_only_visitName_or_attr (name_or_attr1 ctx) st) as R1.
  unfold bind at 1 in H.
  destruct (visitName_or_attr (name_or_attr1 ctx) st) as [[found1 | e1] s1];
    simpl in R1; subst s1; [| discriminate].
  unfold bind at 1, getitem at 1 in H.
  destruct (scope_lookup (heap st) (fst found0) (snd found0)) as [obj |];
    [| discriminate].
  destruct obj; try discriminate.
  unfold bind at 1, getitem at 1 in H.
  destruct (scope_lookup (heap st) (fst found1) (snd found1)) as [target |];
    [| discriminate].
  destruct target; try discriminate.
  unfold bind at 1, get_type_ at 1 in H.
  destruct (object_at (heap st) a) as [o |] eqn:Ho; [| discriminate].
  destruct (is_subclass_of c (type_ o)) eqn:Hsub; simpl in H; [| discriminate].
  apply object_at_Some in Ho as (entity & Hentity & Hi).
  unfold set_type_ in H.
  rewrite (bind_Return _ _ _ _ _ (update_object_Some _ _ _ _ _ Hentity Hi)) in H.
  injection H as _ <-. right. exists a, entity, o, c. auto.
Qed.

(** X14. Whatever the statement, an object that is on the heap is still
    there afterwards with the same [start] and [end_], and its [type_]
    afterwards is a subclass of its [type_] before: the class of an
    object is only ever narrowed. *)
Theorem object_types_only_narrow ctx st a o :
  object_at (heap st) a = Some o ->
  exists o',
    object_at (heap (snd (visitStmt ctx st))) a = Some o' /\
    is_subclass_of (type_ o') (type_ o) = true /\
    start o' = start o /\ end_ o' = end_ o.
Proof.
  intros Ho. destruct (is_retype ctx) eqn:Hkind.
  - destruct ctx; try discriminate. simpl.
    destruct (visitRetype_stmt ctx st) as [r st'] eqn:E. simpl.
    apply visitRetype_stmt_inv in E
      as [-> | (b & entity & o0 & c & Hentity & Hi & Hsub & ->)].
    + exists o. split; [exact Ho |]. split; [apply is_subclass_of_refl | auto].
    + simpl. destruct (decide (b = a)) as [-> | Hne].
      * assert (o0 = o) as ->.
        { apply object_at_Some in Ho as (c' & Hc' & Hi'). congruence. }
        exists (types.mkObject c (start o) (end_ o)).
        split; [| split; [exact Hsub | split; reflexivity]].
        unfold object_at.
        rewrite list_lookup_insert_eq by (eapply lookup_lt_Some, Hentity).
        reflexivity.
      * exists o. split; [| split; [apply is_subclass_of_refl | auto]].
        unfold object_at. rewrite list_lookup_insert_ne by exact Hne. exact Ho.
  - exists o. split; [| split; [apply is_subclass_of_refl | auto]].
    apply (keeps_objects_other_statements ctx Hkind), Ho.
Qed.

Lemma object_types_only_narrow_witness :
  object_at (heap retype_state) 10 = Some (types.mkObject Resistor None None) /\
  (exists o',
     object_at
       (heap (snd (visitStmt (Retype_stmt (mkRetype_stmt (Name "r") (Name "Resistor2")))
                     retype_state))) 10 = Some o' /\
     is_subclass_of (type_ o') Resistor = true).
Proof.
  assert (H : object_at (heap retype_state) 10
              = Some (types.mkObject Resistor None None)) by reflexivity.
  split; [exact H |].
  destruct (object_types_only_narrow
              (Retype_stmt (mkRetype_stmt (Name "r") (Name "Resistor2")))
              retype_state 10 _ H) as (o' & Hat & Hsub & _).
  exists o'. split; [exact Hat | exact Hsub].
Defined.

(** X15. A retype statement binds nothing and allocates nothing: after
    it, however it ends, every lookup in every scope gives what it gave
    before, and the heap has the size it had. In particular an attribute
    made from the object before the retype still records the class the
    object had then. *)
Theorem retype_changes_no_binding ctx st :
  let st' := snd (visitRetype_stmt ctx st) in
  (forall s name, scope_lookup (heap st') s name = scope_lookup (heap st) s name) /\
  length (heap st') = length (heap st) /\
  scope st' = scope st.
Proof.
  destruct (visitRetype_stmt ctx st) as [r st'] eqn:E. simpl.
  apply visitRetype_stmt_inv in E
    as [-> | (a & entity & o & c & Hentity & Hi & Hsub & ->)]; [auto |].
  simpl. split; [| split; [apply length_insert | reflexivity]].
  intros s name. apply lookup_chain_ext. intros b.
  destruct (decide (a = b)) as [<- | Hne].
  - rewrite (members_at_insert _ _ _ _ Hentity). simpl.
    symmetry. apply members_at_Some, Hentity.
  - apply members_at_insert_ne, Hne.
Qed.

(* ===================================================================== *)
(** * The operands of a connect statement *)
(* ===================================================================== *)

Lemma visitConnectable_inline_signal text st v st1 :
  visitSignaldef_stmt text st = (Return v, st1) ->
  visitConnectable (ConnectSignaldef_stmt text) st = (Return v, st1).
Proof.
  intros H.
  assert (Hres : resolve_connectable (ConnectSignaldef_stmt text) st = (Return v, st1))
    by exact H.
  rewrite (visitConnectable_resolved _ _ _ _ Hres).
  rewrite visitSignaldef_stmt_run in H.
  destruct (negb _); [discriminate |].
  destruct (bool_decide _); [discriminate |].
  destruct (declare_Return _ _ _ _ _ H) as (-> & _).
  destruct (declare_Return_object _ _ _ _ _ H) as (Hobject & _).
  simpl. rewrite Hobject. reflexivity.
Qed.




(* ===================================================================== *)
(** * Connect statements that fail half way *)
(* ===================================================================== *)

(** X17. A connect statement is not undone when it fails: when its first
    operand is an inline signal declaration that succeeds and its second
    operand raises, the statement raises the same exception, no link is
    made, and the signal stays declared in the current scope. *)
Theorem failed_connect_keeps_the_inline_signal text second st v st1 e st2 :
  visitSignaldef_stmt text st = (Return v, st1) ->
  visitConnectable second st1 = (Raise e, st2) ->
  visitConnect_stmt (mkConnect_stmt (ConnectSignaldef_stmt text) second) st
    = (Raise e, st2) /\
  scope_lookup (heap st2) (scope st2) (name_key text) = Some v.
Proof.
  intros Hfirst Hsecond. split.
  - unfold visitConnect_stmt. cbn [connectable0 connectable1].
    rewrite (bind_Return _ _ _ _ _ (visitConnectable_inline_signal _ _ _ _ Hfirst)).
    apply bind_Raise, Hsecond.
  - pose proof (append_only_visitConnectable second st1) as (Hscope & _ & Hkeep & _).
    rewrite Hsecond in Hscope, Hkeep. simpl in Hscope, Hkeep.
    rewrite visitSignaldef_stmt_run in Hfirst.
    destruct (negb _); [discriminate |].
    destruct (bool_decide _); [discriminate |].
    apply declare_Return in Hfirst as (_ & Hscope1 & Hbound & _).
    apply scope_lookup_root. rewrite Hscope, Hscope1. apply Hkeep. exact Hbound.
Qed.

Lemma failed_connect_keeps_the_inline_signal_witness :
  visitSignaldef_stmt "a" library_state
    = (Return (VObject 10), snd (visitSignaldef_stmt "a" library_state)) /\
  visitConnectable (ConnectSignaldef_stmt "a") (snd (visitSignaldef_stmt "a" library_state))
    = (Raise (AtoNameConflictError (Cannot_redefine (KStr "a"))),
       snd (visitSignaldef_stmt "a" library_state)) /\
  visitConnect_stmt
    (mkConnect_stmt (ConnectSignaldef_stmt "a") (ConnectSignaldef_stmt "a"))
    library_state
    = (Raise (AtoNameConflictError (Cannot_redefine (KStr "a"))),
       snd (visitSignaldef_stmt "a" library_state)).
Proof.
  assert (H0 : visitSignaldef_stmt "a" library_state
               = (Return (VObject 10), snd (visitSignaldef_stmt "a" library_state)))
    by (vm_compute; reflexivity).
  assert (H1 : visitConnectable (ConnectSignaldef_stmt "a")
                 (snd (visitSignaldef_stmt "a" library_state))
               = (Raise (AtoNameConflictError (Cannot_redefine (KStr "a"))),
                  snd (visitSignaldef_stmt "a" library_state)))
    by (vm_compute; reflexivity).
  split; [exact H0 |]. split; [exact H1 |].
  exact (proj1 (failed_connect_keeps_the_inline_signal
                  "a" (ConnectSignaldef_stmt "a") library_state _ _ _ _ H0 H1)).
Defined.

(* ===================================================================== *)
(** * String literals *)
(* ===================================================================== *)

(** X18. [visitString] takes the quotes off: for a text without a quote
    at either end, wrapped in any number of single or double quote
    characters on each side, it returns the text; quotes inside the text
    stay. *)
Theorem visitString_unquotes before text after st :
  all_quotes before -> all_quotes after -> no_outer_quote text ->
  visitString (before ++ text ++ after)%string st = (Return text, st).
Proof.
  intros Hb Ha Ht. unfold visitString, ret, strip_quotes.
  rewrite !list_ascii_of_string_app.
  rewrite (strip_with_between _ _ _ _ Hb Ha Ht).
  rewrite string_of_list_ascii_of_string. reflexivity.
Qed.

Lemma visitString_unquotes_witness :
  all_quotes "'" /\ all_quotes "'" /\ no_outer_quote "lib's.ato" /\
  visitString "'lib's.ato'" library_state = (Return "lib's.ato", library_state).
Proof.
  assert (Hq : all_quotes "'") by (repeat constructor).
  assert (Ht : no_outer_quote "lib's.ato")
    by (intros c [[= <-] | [= <-]]; reflexivity).
  split; [exact Hq |]. split; [exact Hq |]. split; [exact Ht |].
  exact (visitString_unquotes "'" "lib's.ato" "'" library_state Hq Hq Ht).
Defined.

(** X19. Whatever the text, what [visitString] returns has no quote
    character at either end, and [visitString] returns it unchanged when
    given it again. *)
Theorem visitString_leaves_no_outer_quote text st :
  exists unquoted,
    visitString text st = (Return unquoted, st) /\
    no_outer_quote unquoted /\
    visitString unquoted st = (Return unquoted, st).
Proof.
  exists (strip_quotes text). split; [reflexivity |].
  assert (Hends : no_outer_quote (strip_quotes text)).
  { intros c. unfold strip_quotes. rewrite list_ascii_of_string_of_list_ascii.
    apply strip_with_ends. }
  split; [exact Hends |].
  unfold visitString, ret. f_equal. unfold strip_quotes at 1.
  pose proof (strip_with_between is_quote []
                (list_ascii_of_string (strip_quotes text)) []
                ltac:(constructor) ltac:(constructor) Hends) as H.
  simpl in H. rewrite app_nil_r in H. rewrite H.
  rewrite string_of_list_ascii_of_string. reflexivity.
Qed.
